(** * PubMed-Baseline: resumable fetch / parse / index pipeline

    A shallow embedding of the three pipeline stages and the properties
    the design document states about them:

    - [Parser]       : [src/parser.py]           (record codec)
    - [VectorStore]  : [src/src/vector_store.py] (checkpointed indexer, query)
    - [LegacyStore]  : [src/vector_store.py]     (older query path)
    - [Downloader]   : [src/src/downloader.py]   (byte-range resume, retry)
    - [Session]      : [src/src/downloader.py]   (retry policy of the session)

    Python [str] is embedded as [string], [int] as [Z], [dict] as [gmap],
    [list] as [list].  Calls that leave the process (HTTP, the vector
    database, the file system) are embedded by the values they hand back,
    and every effect the code performs on them is recorded in explicit
    state.

    Standing assumptions: [collection.upsert] and the write of the
    checkpoint file do not raise (the tests run against a mock collection
    and a temporary directory); the values of the JSON keys the indexer
    reads are strings; progress bars and [print] are left out. *)

From Stdlib Require Import ZArith Lia Ascii String List.
From Stdlib.Strings Require Import Byte.
From stdpp Require Import base option list gmap strings sorting.

Local Open Scope string_scope.
Local Open Scope list_scope.
Local Open Scope Z_scope.

(** ** Python string primitives used by the sources *)

Module Py.

(** [bool(s)] for a [str]: the empty string is falsy. *)
Definition truthy (s : string) : bool :=
  match s with "" => false | _ => true end.

(** [bool(x)] for the result of [dict.get(key)]: [None] is falsy. *)
Definition truthy_opt (o : option string) : bool :=
  match o with None => false | Some s => truthy s end.

(** [s[:n]] *)
Fixpoint take (n : nat) (s : string) : string :=
  match n, s with
  | S n', String c s' => String c (take n' s')
  | _, _ => ""
  end.

(** [s[n:]] *)
Fixpoint drop (n : nat) (s : string) : string :=
  match n, s with
  | S n', String _ s' => drop n' s'
  | _, _ => s
  end.

(** [s.startswith(p)] *)
Fixpoint startswith (p s : string) : bool :=
  match p, s with
  | "", _ => true
  | String a p', String b s' => if Ascii.eqb a b then startswith p' s' else false
  | String _ _, "" => false
  end.

(** The leftmost occurrence of [sep] in [s], as the text before it and
    the text after it. *)
Fixpoint find (sep s : string) : option (string * string) :=
  if startswith sep s then Some ("", drop (String.length sep) s)
  else match s with
       | "" => None
       | String c s' =>
           match find sep s' with
           | Some (a, b) => Some (String c a, b)
           | None => None
           end
       end.


(** [sep in s] *)
Definition contains (sep s : string) : bool :=
  match find sep s with Some _ => true | None => false end.

(** [s.split(sep, 1)] for a non-empty [sep]. *)
Definition split1 (sep s : string) : list string :=
  match find sep s with
  | Some (a, b) => [a; b]
  | None => [s]
  end.

(** [sep.join(l)] *)
Fixpoint join (sep : string) (l : list string) : string :=
  match l with
  | [] => ""
  | [x] => x
  | x :: rest => x +:+ sep +:+ join sep rest
  end.

(** [c.isspace()] on the ASCII range: TAB, LF, VT, FF, CR, FS, GS, RS,
    US and SPACE. *)
Definition isspace (c : ascii) : bool :=
  let n := nat_of_ascii c in
  ((9 <=? n)%nat && (n <=? 13)%nat) || ((28 <=? n)%nat && (n <=? 32)%nat).

Fixpoint lstrip (s : string) : string :=
  match s with
  | String c s' => if isspace c then lstrip s' else s
  | "" => ""
  end.

Fixpoint rstrip (s : string) : string :=
  match s with
  | "" => ""
  | String c s' =>
      match rstrip s' with
      | "" => if isspace c then "" else String c ""
      | r => String c r
      end
  end.

(** [s.strip()] *)
Definition strip (s : string) : string := rstrip (lstrip s).

Definition newline : string := String (ascii_of_nat 10) "".

(** Exceptions the modelled code can meet. *)
Inductive exn :=
| NameError (name : string)
| IndexError
| TypeError
| ValueError
| OSError
| ConnectionError          (* the builtin, a subclass of OSError *)
| RequestException         (* requests.exceptions.*: timeouts, HTTPError, ... *)
| ChunkedEncodingError.    (* requests.exceptions.ChunkedEncodingError *)

(** A call either returns a value or raises. *)
Inductive result (A : Type) :=
| Return (a : A)
| Raise (e : exn).
Arguments Return {A} a.
Arguments Raise {A} e.

End Py.

(** ** The checkpointed indexer, [src/src/vector_store.py] *)

Module VectorStore.

Definition COLLECTION_NAME : string := "pubmed_papers".

(** One line of the Archive Store, as [json.loads] sees it.  The values
    of the keys the indexer reads are strings: that is how
    [parser.process_file] writes them. *)
Inductive line :=
| Undecodable                       (* json.loads raises JSONDecodeError *)
| NotAnObject                       (* valid JSON, not a dict: [.get] raises *)
| Object (data : gmap string string).

(** Content of the file [<metadata_file>.checkpoint] as [json.load] and
    [data.get("processed_lines", 0)] see it.  A field that is present
    holds the integer [_save_checkpoint] wrote. *)
Inductive checkpoint_file :=
| Unreadable                        (* open fails, or not valid JSON *)
| NotADict                          (* valid JSON, not a dict *)
| Dict (processed_lines : option Z).

(** Calls received by the database client and its collection. *)
Inductive call :=
| Upsert (documents : list string) (metadatas : list (gmap string string))
         (ids : list string)
| DeleteCollection (name : string)
| GetOrCreateCollection (name : string).

(** What a [VectorStore] can see and change: the checkpoint file next
    to the store ([None] when absent), the content of the collection
    (id to document and metadata), and the calls made so far. *)
Record world := World {
  checkpoint : option checkpoint_file;
  collection : gmap string (string * gmap string string);
  calls : list call
}.

Definition _get_checkpoint_path (metadata_file : string) : string :=
  metadata_file +:+ ".checkpoint".

Definition _load_checkpoint (f : option checkpoint_file) : Z :=
  match f with
  | Some (Dict (Some n)) => n
  | Some (Dict None) => 0        (* data.get default *)
  | Some NotADict => 0           (* AttributeError, caught *)
  | Some Unreadable => 0         (* caught, warning printed *)
  | None => 0                    (* os.path.exists is False *)
  end.

Definition _save_checkpoint (lines_processed : Z) (w : world) : world :=
  World (Some (Dict (Some lines_processed))) (collection w) (calls w).

(** [collection.upsert]: an id already present is overwritten. *)
Definition upsert_into (c : gmap string (string * gmap string string))
    (documents : list string) (metadatas : list (gmap string string))
    (ids : list string) : gmap string (string * gmap string string) :=
  foldl (fun acc e => <[ e.1 := e.2 ]> acc) c (zip ids (zip documents metadatas)).

Definition upsert (documents : list string) (metadatas : list (gmap string string))
    (ids : list string) (w : world) : world :=
  World (checkpoint w)
        (upsert_into (collection w) documents metadatas ids)
        (calls w ++ [Upsert documents metadatas ids]).

(** The text that is embedded, line 120. *)
Definition doc_text (title abstract : string) : string :=
  "Title: " +:+ title +:+ Py.newline +:+ "Abstract: " +:+ abstract.

(** The metadata stored with a document, lines 123-128. *)
Definition make_meta (pmid title : string) (data : gmap string string)
  : gmap string string :=
  <[ "pmid" := pmid ]> (
  <[ "title" := Py.take 200 title ]> (
  <[ "journal" := default "" (data !! "journal") ]> (
  <[ "year" := default "" (data !! "year") ]> ∅))).

(** Lines 111-117: what a line contributes, or [None] when the loop
    [continue]s without touching the batch. *)
Definition accept (l : line) : option (string * gmap string string * string) :=
  match l with
  | Undecodable => None
  | NotAnObject => None
  | Object data =>
      let pmid := data !! "pmid" in
      let title := default "" (data !! "title") in
      let abstract := default "" (data !! "abstract") in
      if negb (Py.truthy_opt pmid) || (negb (Py.truthy title) && negb (Py.truthy abstract))
      then None
      else Some (doc_text title abstract,
                 make_meta (default "" pmid) title data,
                 default "" pmid)
  end.

(** The local variables of the loop of [index_papers]. *)
Record loop := Loop {
  documents : list string;
  metadatas : list (gmap string string);
  ids : list string;
  current_line : Z;
  env : world
}.

(** One iteration of [for line in iterator], lines 108-150. *)
Definition loop_body (batch_size : Z) (s : loop) (l : line) : loop :=
  let current_line := current_line s + 1 in
  match accept l with
  | None => Loop (documents s) (metadatas s) (ids s) current_line (env s)
  | Some (doc, meta, pmid) =>
      let documents := documents s ++ [doc] in
      let metadatas := metadatas s ++ [meta] in
      let ids := ids s ++ [pmid] in
      if batch_size <=? Z.of_nat (length documents)
      then Loop [] [] [] current_line
             (_save_checkpoint current_line (upsert documents metadatas ids (env s)))
      else Loop documents metadatas ids current_line (env s)
  end.

(** Lines 152-159: the remaining partial batch. *)
Definition flush (s : loop) : world :=
  match documents s with
  | [] => env s
  | _ :: _ =>
      _save_checkpoint (current_line s)
        (upsert (documents s) (metadatas s) (ids s) (env s))
  end.

(** Lines 95-99: [next(f, None)] repeated [start_line] times. *)
Definition skip_lines (start_line : Z) (lines : list line) : list line :=
  if 0 <? start_line then drop (Z.to_nat start_line) lines else lines.

(** The loop over the lines left after the skip. *)
Definition run_loop (batch_size start_line : Z) (lines : list line) (w : world) : loop :=
  foldl (loop_body batch_size) (Loop [] [] [] start_line w) lines.

(** [index_papers(metadata_file, batch_size)]; [metadata] is the content
    of the store, [None] when the file does not exist. *)
Definition index_papers (metadata : option (list line)) (batch_size : Z)
    (w : world) : world :=
  match metadata with
  | None => w
  | Some lines =>
      let start_line := _load_checkpoint (checkpoint w) in
      flush (run_loop batch_size start_line (skip_lines start_line lines) w)
  end.

Definition is_upsert (c : call) : bool :=
  match c with Upsert _ _ _ => true | _ => false end.

(** Number of [collection.upsert] calls ([upsert.call_count]). *)
Definition upsert_count (cs : list call) : nat :=
  length (List.filter is_upsert cs).


(** *** Vocabulary of the batching laws *)

(** The lines of a store that reach a batch. *)
Definition accepted (lines : list line) : list (string * gmap string string * string) :=
  omap accept lines.

Definition is_accepted (l : line) : bool :=
  match accept l with Some _ => true | None => false end.

(** Position (1-based) of the last accepted line, 0 when there is none;
    the argument is the store read backwards. *)
Fixpoint last_accepted_rev (backwards : list line) : Z :=
  match backwards with
  | [] => 0
  | l :: before =>
      if is_accepted l then Z.of_nat (length backwards)
      else last_accepted_rev before
  end.

Definition last_accepted (lines : list line) : Z :=
  last_accepted_rev (rev lines).

(** Two states of the loop that agree on the pending batch, on the
    calls made and on the collection; their line counters may differ. *)
Definition same_batches (a b : loop) : Prop :=
  documents a = documents b /\ metadatas a = metadatas b /\ ids a = ids b
  /\ calls (env a) = calls (env b) /\ collection (env a) = collection (env b).

(** [ceil(n / b)] on integers. *)
Definition ceil_div (n b : Z) : Z := (n + b - 1) / b.

(** The [ids] arguments of the upsert calls, in order. *)
Definition upserted_ids (cs : list call) : list (list string) :=
  omap (fun c => match c with Upsert _ _ ids => Some ids | _ => None end) cs.

(** The four-then-six scenario of tests/test_checkpoint_gpu.py. *)
Definition test_record (i : string) : line :=
  Object (<[ "pmid" := i ]> (
          <[ "title" := "Title " +:+ i ]> (
          <[ "abstract" := "Abs " +:+ i ]> ∅))).

Definition first_four : list line :=
  test_record <$> ["0"; "1"; "2"; "3"].

Definition next_six : list line :=
  test_record <$> ["4"; "5"; "6"; "7"; "8"; "9"].

(** *** The query path *)

(** What [collection.query] hands back: one inner list per query text. *)
Record query_result := QueryResult {
  r_ids : list (list string);
  r_metadatas : list (list (gmap string string));
  r_documents : list (list string)
}.

(** One entry of the list [query] returns. *)
Record candidate := Candidate {
  c_pmid : string;
  c_title : string;
  c_journal : string;
  c_year : string;
  c_abstract : string;
  c_authors : list string
}.

(** Values that names are bound to while the loop of [query] runs. *)
Inductive value :=
| Strs (l : list string)
| Metas (l : list (gmap string string))
| Other.

(** The names bound when the loop body of [query] executes: the
    parameters, the locals assigned before the loop, and the globals of
    the module. *)
Definition scope (module_globals : list string) (ids : list string)
    (metas : list (gmap string string)) (documents : list string)
  : gmap string value :=
  <[ "ids" := Strs ids ]> (
  <[ "metas" := Metas metas ]> (
  <[ "documents" := Strs documents ]> (
  list_to_map ((fun n => (n, Other)) <$>
    ([ "self"; "query"; "limit"; "results"; "candidates" ] ++ module_globals))))).

(** [meta = <name>[i]] *)
Definition subscript (sc : gmap string value) (name : string) (i : nat)
  : Py.result (gmap string string) :=
  match sc !! name with
  | None => Py.Raise (Py.NameError name)
  | Some (Metas l) =>
      match l !! i with
      | Some m => Py.Return m
      | None => Py.Raise Py.IndexError
      end
  | Some _ => Py.Raise Py.TypeError
  end.

(** Lines 191-196: the text after the first ["Abstract: "]. *)
Definition parse_abstract (doc_text : string) : string :=
  if Py.contains "Abstract: " doc_text then
    let parts := Py.split1 "Abstract: " doc_text in
    if (1 <? length parts)%nat then nth 1 parts "" else ""
  else "".

Definition make_candidate (doc_id : string) (meta : gmap string string)
    (doc_text : string) : candidate :=
  Candidate doc_id
            (default "" (meta !! "title"))
            (default "" (meta !! "journal"))
            (default "" (meta !! "year"))
            (parse_abstract doc_text)
            [].

(** [for i, doc_id in enumerate(ids)], where the loop body reads the
    metadata through the identifier [meta_name]. *)
Fixpoint query_loop (meta_name : string) (sc : gmap string value)
    (documents : list string) (i : nat) (ids : list string)
    (candidates : list candidate) : Py.result (list candidate) :=
  match ids with
  | [] => Py.Return candidates
  | doc_id :: rest =>
      match subscript sc meta_name i with
      | Py.Raise e => Py.Raise e
      | Py.Return meta =>
          match documents !! i with
          | None => Py.Raise Py.IndexError
          | Some doc_text =>
              query_loop meta_name sc documents (S i) rest
                (candidates ++ [make_candidate doc_id meta doc_text])
          end
      end
  end.

(** The body shared by the two source variants of [query]; they differ
    in the identifier of the statement [meta = ...[i]] only. *)
Definition query_via (meta_name : string) (module_globals : list string)
    (results : query_result) : Py.result (list candidate) :=
  match r_ids results with
  | [] => Py.Return []
  | ids :: _ =>
      match r_metadatas results with
      | [] => Py.Raise Py.IndexError
      | metas :: _ =>
          match r_documents results with
          | [] => Py.Raise Py.IndexError
          | documents :: _ =>
              query_loop meta_name (scope module_globals ids metas documents)
                documents 0 ids []
          end
      end
  end.

(** [VectorStore.query] of src/src/vector_store.py, line 188:
    [meta = metas[i]]. *)
Definition module_globals : list string :=
  [ "os"; "json"; "torch"; "chromadb"; "embedding_functions";
    "List"; "Dict"; "Optional"; "tqdm";
    "CHROMA_DB_PATH"; "COLLECTION_NAME"; "VectorStore" ].

Definition query (results : query_result) : Py.result (list candidate) :=
  query_via "metas" module_globals results.

(** *** Construction and reset *)

(** [__init__], line 35: the collection is fetched or created. *)
Definition __init__ (w : world) : world :=
  World (checkpoint w) (collection w)
        (calls w ++ [GetOrCreateCollection COLLECTION_NAME]).

(** Modelled from the spec: [VectorStore.reset_db] is called by
    tests/test_reset.py but its body is not among the sources.  The
    design document says it deletes the checkpoint file and recreates
    the backing collection empty; the test expects
    [delete_collection("pubmed_papers")] and a second
    [get_or_create_collection]. *)
Definition reset_db (w : world) : world :=
  World None ∅
        (calls w ++ [DeleteCollection COLLECTION_NAME;
                     GetOrCreateCollection COLLECTION_NAME]).

End VectorStore.

(** ** The older query path, [src/vector_store.py] *)

Module LegacyStore.

(** [VectorStore.query] of src/vector_store.py, line 139:
    [meta = metadatas[i]]. *)
Definition module_globals : list string :=
  [ "os"; "json"; "chromadb"; "embedding_functions";
    "List"; "Dict"; "Optional"; "tqdm";
    "CHROMA_DB_PATH"; "COLLECTION_NAME"; "VectorStore" ].

Definition query (results : VectorStore.query_result)
  : Py.result (list VectorStore.candidate) :=
  VectorStore.query_via "metadatas" module_globals results.

End LegacyStore.

(** ** The record codec, [src/parser.py] *)

Module Parser.

(** An lxml element: tag, text, attributes, children in document order. *)
Unset Elimination Schemes.
Inductive element :=
| Element (tag : string) (text : option string)
          (attrib : gmap string string) (children : list element).
Set Elimination Schemes.

Definition tag (e : element) : string :=
  match e with Element t _ _ _ => t end.
Definition text (e : element) : option string :=
  match e with Element _ t _ _ => t end.
Definition attrib (e : element) : gmap string string :=
  match e with Element _ _ a _ => a end.
Definition children (e : element) : list element :=
  match e with Element _ _ _ c => c end.

(** [e.findall(name)]: the direct children with that tag. *)
Definition findall (e : element) (name : string) : list element :=
  List.filter (fun c => String.eqb (tag c) name) (children e).

(** [e.find(name)]: the first of them, or [None]. *)
Definition find (e : element) (name : string) : option element :=
  head (findall e name).

(** [extract_text], lines 11-13. *)
Definition extract_text (element : option element) : string :=
  match element with
  | Some e => if Py.truthy_opt (text e) then default "" (text e) else ""
  | None => ""
  end.

(** The dict [parse_article] returns. *)
Record article := Article {
  pmid : string;
  title : string;
  abstract : string;
  authors : list string;
  journal : string;
  year : string;
  doi : string;
  pmcid : string;
  pub_types : list string;
  languages : list string;
  mesh_terms : list string;
  chemicals : list string;
  keywords : list string
}.

(** Lines 39-43. *)
Definition abstract_of (article : element) : string :=
  match find article "Abstract" with
  | Some abstract =>
      Py.join " " (List.map (fun t => extract_text (Some t))
                     (List.filter (fun t => Py.truthy_opt (text t))
                        (findall abstract "AbstractText")))
  | None => ""
  end.

(** Lines 46-53. *)
Definition authors_of (article : element) : list string :=
  match find article "AuthorList" with
  | Some author_list =>
      foldl (fun authors author =>
               let last_name := extract_text (find author "LastName") in
               let fore_name := extract_text (find author "ForeName") in
               if Py.truthy last_name || Py.truthy fore_name
               then authors ++ [Py.strip (last_name +:+ " " +:+ fore_name)]
               else authors)
            [] (findall author_list "Author")
  | None => []
  end.

(** Lines 56-73: journal title and year. *)
Definition journal_of (article : element) : string * string :=
  match find article "Journal" with
  | Some journal_elem =>
      let journal_title := extract_text (find journal_elem "Title") in
      let year :=
        match find journal_elem "JournalIssue" with
        | Some journal_issue =>
            match find journal_issue "PubDate" with
            | Some pub_date =>
                match find pub_date "Year" with
                | Some year_elem => extract_text (Some year_elem)
                | None =>
                    match find pub_date "MedlineDate" with
                    | Some medline_date => Py.take 4 (extract_text (Some medline_date))
                    | None => ""
                    end
                end
            | None => ""
            end
        | None => ""
        end in
      (journal_title, year)
  | None => ("", "")
  end.

(** The pattern of lines 76-80, 103-107 and 110-114: the texts of the
    [item] children of the optional child [list_name] of [parent]. *)
Definition texts_under (parent : element) (list_name item : string)
    (pick : element -> option element) : list string :=
  match find parent list_name with
  | Some l => List.map (fun x => extract_text (pick x)) (findall l item)
  | None => []
  end.

(** Lines 88-100. *)
Definition mesh_terms_of (medline : element) : list string :=
  match find medline "MeshHeadingList" with
  | Some mesh_list =>
      List.map (fun mesh =>
             let descriptor := extract_text (find mesh "DescriptorName") in
             let qualifiers :=
               List.map (fun q => extract_text (Some q)) (findall mesh "QualifierName") in
             match qualifiers with
             | [] => descriptor
             | _ :: _ => descriptor +:+ " [" +:+ Py.join ", " qualifiers +:+ "]"
             end)
          (findall mesh_list "MeshHeading")
  | None => []
  end.

(** Lines 117-127: [doi] and [pmcid], each assigned at every match. *)
Definition article_ids_of (pubmed_data : option element) : string * string :=
  match pubmed_data with
  | Some pd =>
      match find pd "ArticleIdList" with
      | Some article_id_list =>
          foldl (fun acc article_id =>
                   let id_type := attrib article_id !! "IdType" in
                   if bool_decide (id_type = Some "doi")
                   then (extract_text (Some article_id), acc.2)
                   else if bool_decide (id_type = Some "pmc")
                   then (acc.1, extract_text (Some article_id))
                   else acc)
                ("", "") (findall article_id_list "ArticleId")
      | None => ("", "")
      end
  | None => ("", "")
  end.

(** [parse_article], lines 15-147.  [None] is the [return None] of
    lines 24 and 32; no operation on a well-formed element raises. *)
Definition parse_article (elem : element) : option article :=
  let medline := find elem "MedlineCitation" in
  let pubmed_data := find elem "PubmedData" in
  match medline with
  | None => None
  | Some medline =>
      let pmid := extract_text (find medline "PMID") in
      match find medline "Article" with
      | None => None
      | Some article =>
          let title := extract_text (find article "ArticleTitle") in
          let abstract_text := abstract_of article in
          let authors := authors_of article in
          let jy := journal_of article in
          let pub_types :=
            texts_under article "PublicationTypeList" "PublicationType" Some in
          let languages :=
            List.map (fun lang => extract_text (Some lang)) (findall article "Language") in
          let mesh_terms := mesh_terms_of medline in
          let chemicals :=
            texts_under medline "ChemicalList" "Chemical"
                        (fun chem => find chem "NameOfSubstance") in
          let keywords := texts_under medline "KeywordList" "Keyword" Some in
          let ids := article_ids_of pubmed_data in
          Some (Article pmid title abstract_text authors jy.1 jy.2 ids.1 ids.2
                        pub_types languages mesh_terms chemicals keywords)
      end
  end.

(** [process_file], lines 160-165: every [PubmedArticle] element of the
    archive is parsed, and each dict returned is appended as one line
    (a dict with thirteen keys is truthy). *)
Definition process_file (archive : list element) (output_file : list article)
  : list article :=
  foldl (fun out elem =>
           match parse_article elem with
           | Some data => out ++ [data]
           | None => out
           end)
        output_file archive.

(** [parse_all], lines 185-196: the output is removed, then the
    archives are processed in sorted-name order. *)
Definition parse_all (archives : list (list element)) : list article :=
  foldl (fun out archive => process_file archive out) [] archives.

(** What [json.loads] returns in the indexer for the line [json.dump]
    wrote, restricted to the keys [index_papers] reads. *)
Definition store_line (a : article) : VectorStore.line :=
  VectorStore.Object (
    <[ "pmid" := pmid a ]> (
    <[ "title" := title a ]> (
    <[ "abstract" := abstract a ]> (
    <[ "journal" := journal a ]> (
    <[ "year" := year a ]> ∅))))).

End Parser.

(** ** The fetcher, [src/src/downloader.py] *)

Module Downloader.

(** [except requests.exceptions.RequestException], line 94. *)
Definition is_request_exception (e : Py.exn) : bool :=
  match e with
  | Py.RequestException | Py.ChunkedEncodingError => true
  | _ => false
  end.

(** The exceptions of the handler of line 148. *)
Definition is_retried (e : Py.exn) : bool :=
  match e with
  | Py.RequestException | Py.ChunkedEncodingError | Py.ConnectionError => true
  | _ => false
  end.

(** The [content-length] header of a response. *)
Inductive header :=
| Missing
| Length (n : Z)
| Garbled.                 (* [int(...)] raises ValueError *)

(** What one call of [session.head] gives back to [download_file]: the
    response, or the exception, that leaves the session once its adapter
    is done ([Session.send] below: the adapter may send the request
    several times within the call). *)
Inductive head_outcome :=
| HeadRaises (e : Py.exn)
| HeadResponse (status_code : Z) (content_length : header).

(** What one call of [session.get] gives back to [download_file], once
    the adapter of the session is done: it raises, or it returns a
    response whose [iter_content] yields the blocks of [body] and then
    either ends or raises [broken]. *)
Inductive get_outcome :=
| GetRaises (e : Py.exn)
| GetResponse (status_code : Z) (content_length : header)
              (body : list (list byte)) (broken : option Py.exn).

(** The surroundings of one attempt, as [download_file] meets them: the
    outcome of its call of [session.head], the outcome of its call of
    [session.get], which depends on the [Range] header sent, and whether
    [open] raises.  The requests that the adapter of the session sends
    within one call are told apart in [Session]. *)
Record turn := Turn {
  on_head : head_outcome;
  on_get : option Z -> get_outcome;
  on_open : option Py.exn
}.

Inductive mode := wb | ab.

(** The calls [download_file] makes in an attempt: [session.head],
    [session.get], [open] and [time.sleep].  One [Head] or [Get] is one
    call of the session, not one request on the wire, and [Sleep] is a
    call of line 152, not a pause of the adapter. *)
Inductive event :=
| Head
| Get (range_from : option Z)      (* [Range: bytes=<k>-], or no header *)
| Open (m : mode)
| Sleep (seconds : Z).

(** [os.path.getsize] of the local file, 0 when it does not exist
    (lines 76-80). *)
Definition getsize (local : option (list byte)) : Z :=
  match local with
  | Some content => Z.of_nat (length content)
  | None => 0
  end.

(** Lines 81-83. *)
Definition resume_header (current_size : Z) : option Z :=
  if 0 <? current_size then Some current_size else None.

Definition resume_mode (current_size : Z) : mode :=
  if 0 <? current_size then ab else wb.

(** Lines 87-96: the probe.  A request exception gives total 0; any
    other exception leaves the inner [try]. *)
Definition probe (t : turn) : Py.result Z :=
  match on_head t with
  | HeadRaises e =>
      if is_request_exception e then Py.Return 0 else Py.Raise e
  | HeadResponse status_code content_length =>
      if 400 <=? status_code then Py.Return 0
      else match content_length with
           | Missing => Py.Return 0
           | Length n => Py.Return n
           | Garbled => Py.Raise Py.ValueError
           end
  end.

(** Lines 117-120. *)
Definition update_total (total_size current_size : Z) (content_length : header)
  : Py.result Z :=
  if total_size =? 0 then
    match content_length with
    | Missing => Py.Return total_size
    | Length n => Py.Return (n + current_size)
    | Garbled => Py.Raise Py.ValueError
    end
  else Py.Return total_size.

(** Lines 135-139: the blocks written before the loop ends, and the
    exception that ends it, if any. *)
Fixpoint stream (body : list (list byte)) (broken : option Py.exn)
  : list byte * option Py.exn :=
  match body with
  | [] => ([], broken)
  | data :: rest =>
      match data with
      | [] => ([], None)                     (* [if not data: break] *)
      | _ :: _ => let r := stream rest broken in (data ++ r.1, r.2)
      end
  end.

(** The file as [open(local_path, mode)] leaves it before any write. *)
Definition opened (m : mode) (local : option (list byte)) : list byte :=
  match m with
  | wb => []
  | ab => default [] local
  end.

(** How the body of the [try] of one attempt ends. *)
Inductive ending :=
| Completed                (* [success = True; break] *)
| Raised (e : Py.exn).

(** Lines 74-146: one pass through the body of the attempt loop, up to
    the handlers.  Returns how it ended, the local file afterwards and
    what was done. *)
Definition attempt_body (local : option (list byte)) (t : turn)
  : ending * option (list byte) * list event :=
  let current_size := getsize local in
  let header := resume_header current_size in
  let mode := resume_mode current_size in
  match probe t with
  | Py.Raise e => (Raised e, local, [Head])
  | Py.Return total_size =>
      if (0 <? total_size) && (total_size <=? current_size)
      then (Completed, local, [Head])
      else
        match on_get t header with
        | GetRaises e => (Raised e, local, [Head; Get header])
        | GetResponse status_code content_length body broken =>
            if (400 <=? status_code) && (status_code <? 600)
            then (Raised Py.RequestException, local, [Head; Get header])
            else
              let current_size := if status_code =? 200 then 0 else current_size in
              let mode := if status_code =? 200 then wb else mode in
              match update_total total_size current_size content_length with
              | Py.Raise e => (Raised e, local, [Head; Get header])
              | Py.Return total_size =>
                  match on_open t with
                  | Some e => (Raised e, local, [Head; Get header; Open mode])
                  | None =>
                      let written := stream body broken in
                      let file := opened mode local ++ written.1 in
                      let events := [Head; Get header; Open mode] in
                      match written.2 with
                      | Some e => (Raised e, Some file, events)
                      | None =>
                          if (0 <? total_size) && (Z.of_nat (length file) <? total_size)
                          then (Raised Py.ChunkedEncodingError, Some file, events)
                          else (Completed, Some file, events)
                      end
                  end
              end
        end
  end.

(** Line 149. *)
Definition wait_time (attempt : nat) : Z := 5 * 2 ^ Z.of_nat attempt.

(** [for attempt in range(max_retries)], lines 73-157.  Returns
    [success], the local file and what was done. *)
Fixpoint attempt_loop (remote : nat -> turn) (attempts : list nat)
    (local : option (list byte)) : bool * option (list byte) * list event :=
  match attempts with
  | [] => (false, local, [])
  | attempt :: rest =>
      match attempt_body local (remote attempt) with
      | (Completed, local', events) => (true, local', events)
      | (Raised e, local', events) =>
          if is_retried e then
            let r := attempt_loop remote rest local' in
            (r.1.1, r.1.2, events ++ [Sleep (wait_time attempt)] ++ r.2)
          else (false, local', events)
      end
  end.

(** [range(max_retries)] *)
Definition range (n : Z) : list nat := seq 0 (Z.to_nat n).

(** [download_file], lines 55-165: [Some local_path] on success,
    [None] otherwise. *)
Definition download_file (filename : string) (remote : nat -> turn)
    (dest_dir : string) (max_retries : Z) (local : option (list byte))
  : option string * option (list byte) * list event :=
  let local_path := dest_dir +:+ "/" +:+ filename in
  let r := attempt_loop remote (range max_retries) local in
  (if r.1.1 then Some local_path else None, r.1.2, r.2).

(** A remote end that holds [content] and honours byte ranges: the
    probe announces the full length, a ranged GET answers 206 with the
    rest in one block, a plain GET answers 200 with everything. *)
Definition ranged_server (content : list byte) : turn :=
  Turn (HeadResponse 200 (Length (Z.of_nat (length content))))
       (fun header =>
          match header with
          | Some k =>
              GetResponse 206 (Length (Z.of_nat (length content) - k))
                          [drop (Z.to_nat k) content] None
          | None =>
              GetResponse 200 (Length (Z.of_nat (length content))) [content] None
          end)
       None.

(** The seconds of the [time.sleep] calls, in order. *)
Definition sleeps (events : list event) : list Z :=
  omap (fun e => match e with Sleep s => Some s | _ => None end) events.

(** The [Range] headers of the [session.get] calls, in order. *)
Definition gets (events : list event) : list (option Z) :=
  omap (fun e => match e with Get h => Some h | _ => None end) events.

End Downloader.

(** ** Batches as lists of entries *)

Module Entries.
Import VectorStore.

(** What one accepted line adds to a batch: document, metadata, id. *)
Abbreviation entry := (string * gmap string string * string)%type.

Definition docs (es : list entry) : list string := (fun e => e.1.1) <$> es.
Definition metas (es : list entry) : list (gmap string string) :=
  (fun e => e.1.2) <$> es.
Definition keys (es : list entry) : list string := (fun e => e.2) <$> es.

(** The call [collection.upsert(documents=, metadatas=, ids=)] for a
    batch. *)
Definition as_upsert (es : list entry) : call :=
  Upsert (docs es) (metas es) (keys es).

(** The entries written into a collection one after the other. *)
Definition insert_all (c : gmap string (string * gmap string string))
    (es : list entry) : gmap string (string * gmap string string) :=
  foldl (fun acc e => <[ e.2 := (e.1.1, e.1.2) ]> acc) c es.

(** The lines [index_papers] reads in a run that starts from the
    checkpoint file [f]. *)
Definition unread (f : option checkpoint_file) (lines : list line) : list line :=
  skip_lines (_load_checkpoint f) lines.

End Entries.

(** ** The indexer without checkpoint, [src/vector_store.py] *)

Module LegacyIndexer.
Import VectorStore.

(** The local variables of the loop of the older [index_papers]. *)
Record loop := Loop {
  documents : list string;
  metadatas : list (gmap string string);
  ids : list string;
  env : world
}.

(** One iteration of [for line in iterator], lines 62-102.  Lines 64-81
    are lines 111-128 of the newer file: [accept]. *)
Definition loop_body (batch_size : Z) (s : loop) (l : line) : loop :=
  match accept l with
  | None => s
  | Some (doc, meta, pmid) =>
      let documents := documents s ++ [doc] in
      let metadatas := metadatas s ++ [meta] in
      let ids := ids s ++ [pmid] in
      if batch_size <=? Z.of_nat (length documents)
      then Loop [] [] [] (upsert documents metadatas ids (env s))
      else Loop documents metadatas ids (env s)
  end.

(** Lines 104-110. *)
Definition flush (s : loop) : world :=
  match documents s with
  | [] => env s
  | _ :: _ => upsert (documents s) (metadatas s) (ids s) (env s)
  end.

(** [index_papers(metadata_file, batch_size)], lines 35-112. *)
Definition index_papers (metadata : option (list line)) (batch_size : Z)
    (w : world) : world :=
  match metadata with
  | None => w
  | Some lines => flush (foldl (loop_body batch_size) (Loop [] [] [] w) lines)
  end.

End LegacyIndexer.

(** ** From the parsed store to the index *)

Module Pipeline.
Import Parser.

(** The test of line 116 of [index_papers] on a record of the parser:
    [pmid] and at least one of [title] and [abstract] are not empty. *)
Definition indexable (a : article) : bool :=
  Py.truthy (pmid a) && (Py.truthy (title a) || Py.truthy (abstract a)).

(** [attrib.get("IdType") == kind] for an [ArticleId] element. *)
Definition has_id_type (kind : string) (article_id : element) : bool :=
  bool_decide (attrib article_id !! "IdType" = Some kind).

End Pipeline.

(** ** Remote ends used in the statements about the fetcher *)

Module Remotes.
Import Downloader.

(** A remote end that holds [content] and ignores byte ranges: every GET
    answers 200 with everything in one block. *)
Definition plain_server (content : list byte) : turn :=
  Turn (HeadResponse 200 (Length (Z.of_nat (length content))))
       (fun _ => GetResponse 200 (Length (Z.of_nat (length content))) [content] None)
       None.

(** Seconds added up. *)
Definition total (seconds : list Z) : Z := foldr Z.add 0 seconds.

End Remotes.

(** ** Listing and synchronisation, [src/src/downloader.py] *)

Module Listing.
Import Downloader.

(** [s.endswith(suffix)]: [suffix] is [s] or a tail of [s]. *)
Fixpoint endswith (suffix s : string) : bool :=
  String.eqb suffix s
  || match s with
     | "" => false
     | String _ s' => endswith suffix s'
     end.

(** What [session.get(url)] does for the directory index: it raises, or
    it returns a page with a status and the [href] of every [<a>] tag
    ([None] for a tag without one). *)
Inductive index_page :=
| PageRaises (e : Py.exn)
| Page (status_code : Z) (hrefs : list (option string)).

(** Line 46: [if href and href.endswith(".xml.gz")]. *)
Definition archive_name (href : option string) : option string :=
  match href with
  | Some h => if Py.truthy h && endswith ".xml.gz" h then Some h else None
  | None => None
  end.

(** The order of [sorted] on [str]. *)
Definition str_le (a b : string) : Prop := String.leb a b = true.

#[export] Instance str_le_dec : RelDecision str_le :=
  fun a b => decide (String.leb a b = true).

(** [get_file_list], lines 33-53.  [raise_for_status] raises an
    [HTTPError], a request exception, for a status from 400 to 599. *)
Definition get_file_list (page : index_page) : Py.result (list string) :=
  match page with
  | PageRaises e =>
      if is_request_exception e then Py.Return [] else Py.Raise e
  | Page status_code hrefs =>
      if (400 <=? status_code) && (status_code <? 600) then Py.Return []
      else Py.Return (merge_sort str_le (omap archive_name hrefs))
  end.








End Listing.

(** ** Keyword search of the shell, [src/main.py] *)

Module Shell.
Import VectorStore.

(** [c.lower()] on the ASCII letters; other characters are kept. *)
Definition lower_char (c : ascii) : ascii :=
  let n := nat_of_ascii c in
  if (65 <=? n)%nat && (n <=? 90)%nat then ascii_of_nat (n + 32) else c.

(** [s.lower()] for ASCII text. *)
Fixpoint lower (s : string) : string :=
  match s with
  | "" => ""
  | String c s' => String (lower_char c) (lower s')
  end.

(** Lines 71-73: the test on one decoded record. *)
Definition matches_keyword (keyword : string) (data : gmap string string) : bool :=
  let text := lower (default "" (data !! "title") +:+ " "
                     +:+ default "" (data !! "abstract")) in
  Py.contains (lower keyword) text.

(** Lines 68-81: the scan of the store.  A line that is not JSON is
    skipped; a line that decodes to something else than an object raises
    out of the loop, and the matches so far are returned. *)
Fixpoint scan (keyword : string) (limit : Z) (lines : list line) (count : Z)
    (matches : list (gmap string string)) : list (gmap string string) :=
  match lines with
  | [] => matches
  | Undecodable :: rest => scan keyword limit rest count matches
  | NotAnObject :: _ => matches
  | Object data :: rest =>
      if matches_keyword keyword data then
        let matches := matches ++ [data] in
        let count := count + 1 in
        if limit <=? count then matches
        else scan keyword limit rest count matches
      else scan keyword limit rest count matches
  end.

(** What [find_candidates] returns: candidates of the index, or records
    of the store. *)
Inductive hit :=
| Indexed (c : candidate)
| Stored (data : gmap string string).

(** [find_candidates(keyword, limit, use_vector)], lines 45-83.  [vs] is
    what [get_vector_store()] and [vs.search] give: [None] when the store
    cannot be built, else the outcome of the search. *)
Definition find_candidates (keyword : string) (limit : Z) (use_vector : bool)
    (vs : option (Py.result (list candidate))) (metadata : option (list line))
  : list hit :=
  let fallback :=
    match metadata with
    | None => []
    | Some lines => Stored <$> scan keyword limit lines 0 []
    end in
  if use_vector then
    match vs with
    | Some (Py.Return cs) => Indexed <$> cs
    | Some (Py.Raise _) => fallback
    | None => fallback
    end
  else fallback.

(** The records among the lines of a store. *)
Definition records (lines : list line) : list (gmap string string) :=
  omap (fun l => match l with Object data => Some data | _ => None end) lines.

End Shell.

(** ** The session of [get_session], [src/src/downloader.py] *)

Module Session.
Import Downloader.

(** The arguments of [Retry(...)], lines 22-27. *)
Record Retry := {
  total : nat;
  backoff_factor : Z;
  status_forcelist : list Z;
  allowed_methods : list string
}.

Definition retries : Retry := {|
  total := 5;
  backoff_factor := 1;
  status_forcelist := [429; 500; 502; 503; 504];
  allowed_methods := ["HEAD"; "GET"; "OPTIONS"]
|}.

(** [Retry.RETRY_AFTER_STATUS_CODES] of urllib3. *)
Definition RETRY_AFTER_STATUS_CODES : list Z := [413; 429; 503].

(** What one request sent by the adapter meets: no response (the
    connection fails or times out), or a response with its status, with
    or without a [Retry-After] header.  Redirects are not followed
    here: an answer is the last response of its exchange. *)
Inductive reply (R : Type) :=
| Lost
| Answer (status_code : Z) (retry_after : bool) (response : R).

Arguments Lost {R}.
Arguments Answer {R} status_code retry_after response.

(** [Retry.is_retry(method, status_code, has_retry_after)]; [budget] is
    what remains of [total]. *)
Definition is_retry (policy : Retry) (method : string) (budget : nat)
    (status_code : Z) (retry_after : bool) : bool :=
  bool_decide (method ∈ allowed_methods policy)
  && (bool_decide (status_code ∈ status_forcelist policy)
      || (negb (budget =? 0)%nat && retry_after
          && bool_decide (status_code ∈ RETRY_AFTER_STATUS_CODES))).

(** One call of [session.head] or [session.get] through the adapter
    mounted at lines 28-30.  The request is sent; while no response
    comes, or [is_retry] holds for the response, it is sent again, until
    [total] is used up, and then the call raises (requests'
    [ConnectionError] or [RetryError], both request exceptions: [None]).
    [wire i] is what the request sent after [i] others meets.  Returns
    the response handed to the caller and the number of requests sent.
    The pauses the adapter makes between two requests are not
    modelled. *)
Fixpoint send {R : Type} (policy : Retry) (method : string) (budget : nat)
    (wire : nat -> reply R) (sent : nat) : option (Z * R) * nat :=
  match wire sent with
  | Lost =>
      match budget with
      | O => (None, S sent)
      | S budget => send policy method budget wire (S sent)
      end
  | Answer status_code retry_after response =>
      if is_retry policy method budget status_code retry_after then
        match budget with
        | O => (None, S sent)
        | S budget => send policy method budget wire (S sent)
        end
      else (Some (status_code, response), S sent)
  end.

(** The remote end during one attempt of [download_file], request by
    request; the GET requests carry the [Range] header of the attempt. *)
Record exchange := Exchange {
  wire_head : nat -> reply header;
  wire_get : option Z -> nat -> reply (header * list (list byte) * option Py.exn);
  wire_open : option Py.exn
}.

(** [session.head(remote_url, timeout=30)], line 87, with the number of
    HEAD requests sent. *)
Definition session_head (x : exchange) : head_outcome * nat :=
  let r := send retries "HEAD" (total retries) (wire_head x) 0 in
  (match r.1 with
   | Some (status_code, content_length) => HeadResponse status_code content_length
   | None => HeadRaises Py.RequestException
   end, r.2).

(** [session.get(remote_url, stream=True, headers=resume_header,
    timeout=60)], line 101, with the number of GET requests sent. *)
Definition session_get (x : exchange) (range_from : option Z) : get_outcome * nat :=
  let r := send retries "GET" (total retries) (wire_get x range_from) 0 in
  (match r.1 with
   | Some (status_code, (content_length, body, broken)) =>
       GetResponse status_code content_length body broken
   | None => GetRaises Py.RequestException
   end, r.2).

(** What [download_file] sees of an exchange. *)
Definition as_turn (x : exchange) : turn :=
  Turn (session_head x).1 (fun range_from => (session_get x range_from).1) (wire_open x).

(** The HEAD and the GET requests sent during one pass through the body
    of the attempt loop: those of the call of line 87 and, when the pass
    reaches line 101, those of that call. *)
Definition attempt_requests (local : option (list byte)) (x : exchange) : nat * nat :=
  ((session_head x).2,
   sum_list_with (fun range_from => (session_get x range_from).2)
                 (gets (attempt_body local (as_turn x)).2)).

(** The HEAD and the GET requests sent during the attempt loop; the
    loop goes on as [attempt_loop] does. *)
Fixpoint requests (remote : nat -> exchange) (attempts : list nat)
    (local : option (list byte)) : nat * nat :=
  match attempts with
  | [] => (0, 0)%nat
  | attempt :: rest =>
      let here := attempt_requests local (remote attempt) in
      match attempt_body local (as_turn (remote attempt)) with
      | (Completed, _, _) => here
      | (Raised e, local', _) =>
          if is_retried e then
            let r := requests remote rest local' in
            (here.1 + r.1, here.2 + r.2)%nat
          else here
      end
  end.

(** The HEAD and the GET requests sent during [download_file]. *)
Definition download_requests (remote : nat -> exchange) (max_retries : Z)
    (local : option (list byte)) : nat * nat :=
  requests remote (range max_retries) local.

(** A reply that is no success: no response, or a 4xx or 5xx status. *)
Definition refused {R : Type} (p : reply R) : bool :=
  match p with
  | Lost => true
  | Answer status_code _ _ => (400 <=? status_code) && (status_code <? 600)
  end.

(** A reply after which the adapter sends the request again as long as
    [total] allows: no response, or a status of the force list. *)
Definition forced {R : Type} (p : reply R) : bool :=
  match p with
  | Lost => true
  | Answer status_code _ _ => bool_decide (status_code ∈ status_forcelist retries)
  end.

(** A reply that the adapter hands to the caller at once: a response
    whose status is not in the force list and that does not ask, with
    [Retry-After], to be tried again. *)
Definition final {R : Type} (p : reply R) : bool :=
  match p with
  | Lost => false
  | Answer status_code retry_after _ =>
      negb (bool_decide (status_code ∈ status_forcelist retries))
      && negb (retry_after && bool_decide (status_code ∈ RETRY_AFTER_STATUS_CODES))
  end.

(** A remote end that answers every request with [status_code] and an
    empty body. *)
Definition failing_server (status_code : Z) : exchange :=
  Exchange (fun _ => Answer status_code false Missing)
           (fun _ _ => Answer status_code false (Missing, [], None))
           None.

End Session.

(** * Properties *)

(** ** Checkpointed indexer *)

Section Indexer.
Import VectorStore.

Implicit Types (l : line) (lines : list line) (w : world) (s : loop).

Local Arguments upsert_count : simpl never.

Lemma upsert_count_app cs cs' :
  upsert_count (cs ++ cs') = (upsert_count cs + upsert_count cs')%nat.
Proof. unfold upsert_count. by rewrite List.filter_app, length_app. Qed.

Lemma run_loop_snoc B p lines l w :
  run_loop B p (lines ++ [l]) w = loop_body B (run_loop B p lines w) l.
Proof. unfold run_loop. by rewrite foldl_app. Qed.

Lemma accepted_snoc lines l :
  accepted (lines ++ [l]) = accepted lines ++ from_option (fun x => [x]) [] (accept l).
Proof.
  unfold accepted. rewrite omap_app. simpl. by destruct (accept l).
Qed.

Lemma last_accepted_snoc lines l :
  last_accepted (lines ++ [l]) =
    if is_accepted l then Z.of_nat (length lines) + 1 else last_accepted lines.
Proof.
  unfold last_accepted. rewrite rev_unit. simpl.
  destruct (is_accepted l); [|done]. rewrite length_rev. lia.
Qed.

Lemma last_accepted_le lines : 0 <= last_accepted lines <= Z.of_nat (length lines).
Proof.
  induction lines as [|l lines IH] using rev_ind; [done|].
  rewrite last_accepted_snoc, length_app. simpl.
  destruct (is_accepted l); lia.
Qed.

(** A rejected line moves the line counter and nothing else. *)
Lemma loop_body_rejected B s l :
  accept l = None ->
  loop_body B s l =
    Loop (documents s) (metadatas s) (ids s) (current_line s + 1) (env s).
Proof. intros H. unfold loop_body. by rewrite H. Qed.

(** The state of the loop after any prefix of the store, for a positive
    batch size. *)
Lemma run_loop_invariant B p lines w :
  0 < B ->
  let s := run_loop B p lines w in
  let n := Z.of_nat (length (accepted lines)) in
  current_line s = p + Z.of_nat (length lines)
  /\ Z.of_nat (length (documents s)) < B
  /\ Z.of_nat (upsert_count (calls (env s))) * B + Z.of_nat (length (documents s))
      = Z.of_nat (upsert_count (calls w)) * B + n
  /\ (documents s = [] ->
      checkpoint (env s) =
        if n =? 0 then checkpoint w
        else Some (Dict (Some (p + last_accepted lines)))).
Proof.
  intros HB. induction lines as [|l lines IH] using rev_ind.
  - cbn. repeat split; lia || done.
  - cbn zeta in *. destruct IH as (Hcur & Hlt & Hcnt & Hck).
    rewrite run_loop_snoc, accepted_snoc, last_accepted_snoc, !length_app.
    unfold loop_body, is_accepted. set (s := run_loop B p lines w) in *.
    destruct (accept l) as [[[doc meta] pmid]|] eqn:Hacc; cbn -[Z.of_nat].
    + rewrite length_app. cbn [length].
      destruct (Z.leb_spec B (Z.of_nat (length (documents s) + 1))) as [Hfull|Hroom];
        cbn -[Z.of_nat].
      * rewrite upsert_count_app. change (upsert_count [_]) with 1%nat.
        repeat split; [lia | lia | nia |].
        intros _. rewrite Hcur.
        destruct (Z.eqb_spec (Z.of_nat (length (accepted lines) + 1)) 0); [lia|].
        do 3 f_equal. lia.
      * rewrite length_app. cbn [length].
        repeat split; [lia | lia | lia |].
        intros Hnil. by destruct (documents s).
    + rewrite Nat.add_0_r. repeat split; [lia | lia | lia |].
      intros Hnil. by rewrite Hck.
Qed.

Lemma ceil_div_exact q B : 0 < B -> ceil_div (q * B) B = q.
Proof.
  intros HB. unfold ceil_div. symmetry.
  apply (Z.div_unique _ _ q (B - 1)); lia.
Qed.

Lemma ceil_div_partial q d B : 0 < d < B -> ceil_div (q * B + d) B = q + 1.
Proof.
  intros Hd. unfold ceil_div. symmetry.
  apply (Z.div_unique _ _ (q + 1) (d - 1)); lia.
Qed.

(** One run of the loop and the final flush, from line [p]. *)
Lemma index_run_law B p lines w :
  0 < B ->
  let w' := flush (run_loop B p lines w) in
  let n := Z.of_nat (length (accepted lines)) in
  Z.of_nat (upsert_count (calls w')) =
    Z.of_nat (upsert_count (calls w)) + ceil_div n B
  /\ checkpoint w' =
       if n =? 0 then checkpoint w
       else Some (Dict (Some (p + if n mod B =? 0 then last_accepted lines
                                  else Z.of_nat (length lines)))).
Proof.
  intros HB. cbn zeta.
  destruct (run_loop_invariant B p lines w HB) as (Hcur & Hlt & Hcnt & Hck).
  set (s := run_loop B p lines w) in *.
  set (n := Z.of_nat (length (accepted lines))) in *.
  set (u := Z.of_nat (upsert_count (calls (env s)))) in *.
  set (u0 := Z.of_nat (upsert_count (calls w))) in *.
  unfold flush. destruct (documents s) as [|d ds] eqn:Hdocs.
  - cbn [length] in Hcnt. assert (n = (u - u0) * B) as Hn by lia.
    split.
    + rewrite Hn, ceil_div_exact by done. lia.
    + rewrite Hck by done. destruct (n =? 0); [done|].
      rewrite Hn, Z.mod_mul by lia. done.
  - set (k := Z.of_nat (length (d :: ds))) in *.
    assert (0 < k) by (unfold k; cbn [length]; lia).
    assert (n = (u - u0) * B + k) as Hn by lia.
    cbn [_save_checkpoint upsert calls checkpoint].
    rewrite upsert_count_app. change (upsert_count [_]) with 1%nat.
    split.
    + rewrite Hn, ceil_div_partial by lia. lia.
    + assert (0 <= u - u0) by nia.
      destruct (Z.eqb_spec n 0); [nia|].
      assert (n mod B = k) as ->.
      { symmetry. apply (Z.mod_unique _ _ (u - u0)); lia. }
      destruct (Z.eqb_spec k 0); [lia|]. by rewrite Hcur.
Qed.

Lemma length_accepted_le lines : (length (accepted lines) <= length lines)%nat.
Proof.
  induction lines as [|l lines IH]; [done|].
  unfold accepted in *. cbn. destruct (accept l); cbn; lia.
Qed.

(** When the last line of a store is accepted, its position is the
    length of the store. *)
Lemma last_accepted_all lines :
  lines <> [] ->
  length (accepted lines) = length lines ->
  last_accepted lines = Z.of_nat (length lines).
Proof.
  destruct lines as [|l lines _] using rev_ind; [done|]. intros _.
  rewrite accepted_snoc, last_accepted_snoc, !length_app.
  pose proof (length_accepted_le lines).
  unfold is_accepted. destruct (accept l); cbn [from_option length]; lia.
Qed.

(** C1 (as the code has it).  From an absent checkpoint and for a
    positive batch size, a store with [n] accepted lines causes exactly
    [ceil(n / B)] upsert calls.  The checkpoint is written together with
    an upsert only: with no accepted line none is written; when the run
    ends with a partial batch it holds the number of lines read; when [n]
    is a positive multiple of [B] it holds the position of the last
    accepted line, which is the number of lines read whenever the last
    line of the store is accepted (in particular when every line is).
    In the test scenario, four records with batch size 2 give two upserts
    and checkpoint 4, and after six more records the second run gives
    three further upserts, for ids 4 to 9, and checkpoint 10. *)
Theorem batch_count_law :
  (forall lines B w,
     0 < B -> checkpoint w = None ->
     let n := Z.of_nat (length (accepted lines)) in
     let total := Z.of_nat (length lines) in
     let w' := index_papers (Some lines) B w in
     Z.of_nat (upsert_count (calls w')) - Z.of_nat (upsert_count (calls w))
       = ceil_div n B
     /\ (n = 0 -> checkpoint w' = None)
     /\ (0 < n -> n mod B <> 0 -> checkpoint w' = Some (Dict (Some total)))
     /\ (0 < n -> n mod B = 0 ->
         checkpoint w' = Some (Dict (Some (last_accepted lines))))
     /\ (0 < n -> last_accepted lines = total ->
         checkpoint w' = Some (Dict (Some total)))
     /\ (0 < n -> n = total -> checkpoint w' = Some (Dict (Some total))))
  /\ (let w0 := __init__ (World None ∅ []) in
      let w1 := index_papers (Some first_four) 2 w0 in
      let w2 := index_papers (Some (first_four ++ next_six)) 2 w1 in
      upsert_count (calls w1) = 2%nat
      /\ checkpoint w1 = Some (Dict (Some 4))
      /\ (upsert_count (calls w2) - upsert_count (calls w1))%nat = 3%nat
      /\ checkpoint w2 = Some (Dict (Some 10))
      /\ upserted_ids (calls w2) =
           [["0"; "1"]; ["2"; "3"]; ["4"; "5"]; ["6"; "7"]; ["8"; "9"]]).
Proof.
  split; [|by vm_compute].
  intros lines B w HB Hfresh n total w'.
  assert (w' = flush (run_loop B 0 lines w)) as ->.
  { unfold w', index_papers. by rewrite Hfresh. }
  destruct (index_run_law B 0 lines w HB) as [Hcount Hck].
  fold n total in Hcount, Hck. rewrite Hfresh in Hck.
  assert (forall m, 0 < n -> m = (if n mod B =? 0 then last_accepted lines else total) ->
          checkpoint (flush (run_loop B 0 lines w)) = Some (Dict (Some m))) as Hpos.
  { intros m Hn ->. rewrite Hck. destruct (Z.eqb_spec n 0); [lia|]. done. }
  split; [lia|]. split.
  { intros ->. by rewrite Hck. }
  split.
  { intros Hn Hmod. apply Hpos; [done|]. by destruct (Z.eqb_spec (n mod B) 0). }
  split.
  { intros Hn Hmod. apply Hpos; [done|]. by rewrite Hmod. }
  split.
  { intros Hn Hlast. apply Hpos; [done|]. rewrite Hlast. by destruct (n mod B =? 0). }
  intros Hn Hall. apply Hpos; [done|].
  rewrite last_accepted_all; [by destruct (n mod B =? 0)| |lia].
  intros ->. cbn in total. lia.
Qed.

(** At the store [first_four] with batch size 2. *)
Lemma batch_count_law_witness :
  let w := World None ∅ [] in
  let w' := index_papers (Some first_four) 2 w in
  Z.of_nat (upsert_count (calls w')) - Z.of_nat (upsert_count (calls w))
    = ceil_div 4 2
  /\ checkpoint w' = Some (Dict (Some 4)).
Proof.
  pose proof (proj1 batch_count_law first_four 2 (World None ∅ [])
                ltac:(lia) ltac:(reflexivity)) as H.
  cbn zeta in H. destruct H as (Hcount & _ & _ & _ & _ & Hall).
  split; [exact Hcount|]. apply Hall; [vm_compute; reflexivity | reflexivity].
Defined.

(** C1 (as stated).  A store of two lines, the first accepted and the
    second with an empty pmid, indexed with batch size 1 from an absent
    checkpoint: one accepted line and one upsert, but the checkpoint is
    left at 1 although 2 lines were read. *)
Lemma batch_count_checkpoint_counterexample :
  let lines := [test_record "0"; Object (<[ "pmid" := "" ]> (<[ "title" := "T" ]> ∅))] in
  let w' := index_papers (Some lines) 1 (World None ∅ []) in
  length (accepted lines) = 1%nat
  /\ upsert_count (calls w') = 1%nat
  /\ checkpoint w' = Some (Dict (Some 1))
  /\ _load_checkpoint (checkpoint w') <> Z.of_nat (length lines).
Proof. by vm_compute. Qed.

Lemma loop_body_same_batches B a b l :
  same_batches a b -> same_batches (loop_body B a l) (loop_body B b l).
Proof.
  intros (Hd & Hm & Hi & Hc & Hcol). unfold loop_body, same_batches.
  destruct (accept l) as [[[doc meta] pmid]|]; cbn; [|done].
  rewrite Hd, Hm, Hi. destruct (B <=? _); cbn; by rewrite ?Hc, ?Hcol.
Qed.

(** Lines none of which is accepted only move the line counter. *)
Lemma foldl_rejected B lines s :
  accepted lines = [] ->
  foldl (loop_body B) s lines =
    Loop (documents s) (metadatas s) (ids s)
         (current_line s + Z.of_nat (length lines)) (env s).
Proof.
  revert s. induction lines as [|l lines IH]; intros s H.
  - destruct s; cbn. f_equal. lia.
  - unfold accepted in H. cbn in H. destruct (accept l) eqn:Hl; [done|].
    cbn [foldl]. rewrite loop_body_rejected by done. rewrite IH by done.
    cbn [documents metadatas ids current_line env]. f_equal.
    rewrite length_cons. lia.
Qed.

(** Two runs over the same lines, the first with its line counter one
    ahead: either a batch was upserted on the way, and then the
    checkpoint files hold positions one apart, or none was, and then the
    files are as at the start and the pending batch has grown by the
    accepted lines. *)
Lemma foldl_later_checkpoints B lines a b :
  same_batches a b -> current_line a = current_line b + 1 ->
  let a' := foldl (loop_body B) a lines in
  let b' := foldl (loop_body B) b lines in
  same_batches a' b'
  /\ current_line a' = current_line b' + 1
  /\ current_line b <= current_line b'
  /\ ((exists n, current_line b < n <= current_line b'
                 /\ checkpoint (env a') = Some (Dict (Some (n + 1)))
                 /\ checkpoint (env b') = Some (Dict (Some n)))
      \/ (checkpoint (env a') = checkpoint (env a)
          /\ checkpoint (env b') = checkpoint (env b)
          /\ documents b' = documents b ++ Entries.docs (accepted lines))).
Proof.
  intros Hs Hk. induction lines as [|l lines IH] using rev_ind.
  - cbn. split; [done|]. split; [done|]. split; [lia|]. right.
    by rewrite app_nil_r.
  - cbn zeta in *. rewrite !foldl_app. cbn [foldl].
    destruct IH as (Hs' & Hk' & Hle & Hcase).
    split; [by apply loop_body_same_batches|].
    rewrite accepted_snoc.
    set (sa := foldl (loop_body B) a lines) in *.
    set (sb := foldl (loop_body B) b lines) in *.
    assert ((exists n, current_line b < n <= current_line sb + 1
                       /\ checkpoint (env sa) = Some (Dict (Some (n + 1)))
                       /\ checkpoint (env sb) = Some (Dict (Some n)))
            \/ (checkpoint (env sa) = checkpoint (env a)
                /\ checkpoint (env sb) = checkpoint (env b)
                /\ documents sb = documents b ++ Entries.docs (accepted lines)))
      as Hcase'.
    { destruct Hcase as [(n & Hn & H)|H]; [left|by right].
      exists n. split; [lia|done]. }
    unfold loop_body. destruct Hs' as (Hd & _).
    destruct (accept l) as [[[doc meta] pmid]|]; cbn.
    + rewrite Hd. destruct (B <=? _); cbn.
      * split; [lia|]. split; [lia|]. left. exists (current_line sb + 1).
        split; [lia|]. by rewrite Hk'.
      * split; [lia|]. split; [lia|].
        destruct Hcase' as [H|(Ha & Hb & Hdocs)]; [by left|right].
        split; [done|]. split; [done|].
        unfold Entries.docs. rewrite fmap_app, app_assoc. cbn.
        by rewrite Hdocs.
    + split; [lia|]. split; [lia|]. by rewrite app_nil_r.
Qed.

(** C3 (amended).  A line that is not valid JSON, that lacks a pmid, or
    that has neither title nor abstract is not accepted, and the loop
    body only adds one to the line counter for it.  A run over a store
    that contains the line makes the same upsert calls, with the same
    batches, as a run over the store without it, and its line counter
    ends one higher.  The checkpoint file follows the counter only where
    a checkpoint is written after the line: when no batch is pending at
    the line and no accepted line follows it, both runs leave the file
    as it was when the line was reached; when a batch is pending at the
    line or an accepted line follows it, the file ends at a position [n]
    without the line and at [n + 1] with it, [n] being a position
    between the one reached at the line and the end of the store. *)
Theorem rejected_line_moves_later_checkpoints l :
  (l = Undecodable
   \/ exists data, l = Object data
        /\ (data !! "pmid" = None \/ data !! "pmid" = Some ""
            \/ (default "" (data !! "title") = ""
                /\ default "" (data !! "abstract") = ""))) ->
  accept l = None
  /\ (forall B s,
        loop_body B s l =
          Loop (documents s) (metadatas s) (ids s) (current_line s + 1) (env s))
  /\ (forall B p before after w,
        let reached := run_loop B p before w in
        let a := run_loop B p (before ++ l :: after) w in
        let b := run_loop B p (before ++ after) w in
        accepted (before ++ l :: after) = accepted (before ++ after)
        /\ same_batches a b
        /\ current_line a = current_line b + 1
        /\ calls (flush a) = calls (flush b)
        /\ collection (flush a) = collection (flush b)
        /\ (documents reached = [] -> accepted after = [] ->
            checkpoint (flush a) = checkpoint (env reached)
            /\ checkpoint (flush b) = checkpoint (env reached))
        /\ (documents reached <> [] \/ accepted after <> [] ->
            exists n,
              current_line reached <= n <= current_line b
              /\ checkpoint (flush a) = Some (Dict (Some (n + 1)))
              /\ checkpoint (flush b) = Some (Dict (Some n)))).
Proof.
  intros Hrej.
  assert (accept l = None) as Hacc.
  { destruct Hrej as [->|(data & -> & [H|[H|[Ht Ha]]])]; [done|..]; cbn.
    - by rewrite H.
    - by rewrite H.
    - rewrite Ht, Ha. cbn. by rewrite orb_true_r. }
  split; [done|]. split; [intros; by apply loop_body_rejected|].
  intros B p before after w reached a b.
  assert (a = foldl (loop_body B) (loop_body B reached l) after) as Ha.
  { unfold a, reached, run_loop. by rewrite foldl_app. }
  assert (b = foldl (loop_body B) reached after) as Hb.
  { unfold b, reached, run_loop. by rewrite foldl_app. }
  rewrite loop_body_rejected in Ha by done.
  destruct (foldl_later_checkpoints B after
              (Loop (documents reached) (metadatas reached) (ids reached)
                    (current_line reached + 1) (env reached)) reached)
    as (Hs & Hk & Hle & Hcase); [by unfold same_batches | done |].
  cbn zeta in Hs, Hk, Hle, Hcase. rewrite <- Ha, <- Hb in Hs, Hk, Hcase.
  rewrite <- Hb in Hle. cbn [env documents] in Hcase.
  split.
  { unfold accepted. rewrite !omap_app. cbn. by rewrite Hacc. }
  split; [done|]. split; [done|].
  assert (calls (flush a) = calls (flush b)
          /\ collection (flush a) = collection (flush b)) as [Hcalls Hcol].
  { destruct Hs as (Hd & Hm & Hi & Hc & Hcl). unfold flush. rewrite Hd.
    destruct (documents b); cbn; by rewrite ?Hm, ?Hi, ?Hc, ?Hcl. }
  split; [done|]. split; [done|]. split.
  - intros Hnone Hafter. rewrite Ha, Hb, !foldl_rejected by done.
    unfold flush. cbn [documents env]. by rewrite Hnone.
  - intros Hsome. destruct Hs as (Hd & _). unfold flush. rewrite Hd.
    destruct (documents b) as [|doc pending] eqn:Hpending; cbn.
    + destruct Hcase as [(n & Hn & H)|(_ & _ & Hdocs)].
      * exists n. split; [lia|done].
      * symmetry in Hdocs. apply app_eq_nil in Hdocs as [Hr Hf].
        unfold Entries.docs in Hf. apply fmap_nil_inv in Hf.
        by destruct Hsome.
    + exists (current_line b). split; [lia|]. by rewrite Hk.
Qed.

(** At a store of two lines, the first with an empty pmid and the second
    accepted, with batch size 1: the checkpoint holds 2 with the first
    line and 1 without it. *)
Lemma rejected_line_moves_later_checkpoints_witness :
  let l := Object (<[ "pmid" := "" ]> (<[ "title" := "T" ]> ∅)) in
  let w := World None ∅ [] in
  exists n,
    current_line (run_loop 1 0 [] w) <= n
      <= current_line (run_loop 1 0 ([] ++ [test_record "0"]) w)
    /\ checkpoint (flush (run_loop 1 0 ([] ++ l :: [test_record "0"]) w))
      = Some (Dict (Some (n + 1)))
    /\ checkpoint (flush (run_loop 1 0 ([] ++ [test_record "0"]) w))
      = Some (Dict (Some n)).
Proof.
  refine (proj2 (proj2 (proj2 (proj2 (proj2 (proj2 (proj2 (proj2
            (rejected_line_moves_later_checkpoints
               (Object (<[ "pmid" := "" ]> (<[ "title" := "T" ]> ∅))) _))
            1 0 [] [test_record "0"] (World None ∅ []))))))) _).
  - right. eexists. split; [reflexivity|]. right. left. reflexivity.
  - right. vm_compute. discriminate.
Defined.

(** C3 (as stated).  A store of two lines, the first accepted and the
    second with an empty pmid, indexed with batch size 1 from an absent
    checkpoint: the second line is rejected, and the checkpoint file
    holds 1 after the run, as it does for the store without that line;
    the rejected line has not moved the persisted position. *)
Lemma rejected_line_checkpoint_counterexample :
  let l := Object (<[ "pmid" := "" ]> (<[ "title" := "T" ]> ∅)) in
  let w := World None ∅ [] in
  let with_line := index_papers (Some [test_record "0"; l]) 1 w in
  let without := index_papers (Some [test_record "0"]) 1 w in
  accept l = None
  /\ checkpoint with_line = Some (Dict (Some 1))
  /\ checkpoint without = Some (Dict (Some 1))
  /\ _load_checkpoint (checkpoint with_line)
       <> _load_checkpoint (checkpoint without) + 1.
Proof. by vm_compute. Qed.

(** C9.  When the checkpoint file is absent, cannot be read or decoded,
    is not a JSON object, or has no [processed_lines] field, loading it
    gives 0 (no exception leaves [_load_checkpoint]), and [index_papers]
    reads the store from its first line. *)
Theorem load_checkpoint_defaults_to_zero (f : option checkpoint_file) :
  (f = None \/ f = Some Unreadable \/ f = Some NotADict \/ f = Some (Dict None)) ->
  _load_checkpoint f = 0
  /\ (forall lines B w,
        checkpoint w = f ->
        index_papers (Some lines) B w = flush (run_loop B 0 lines w)).
Proof.
  intros Hf.
  assert (_load_checkpoint f = 0) as H0 by (by destruct Hf as [->|[->|[->| ->]]]).
  split; [done|]. intros lines B w <-. unfold index_papers. by rewrite H0.
Qed.

(** At a checkpoint file that does not hold JSON. *)
Lemma load_checkpoint_defaults_to_zero_witness :
  _load_checkpoint (Some Unreadable) = 0.
Proof.
  apply (load_checkpoint_defaults_to_zero (Some Unreadable)).
  right. left. reflexivity.
Defined.

(** The calls made before a run are a frame: the run appends to them and
    is otherwise independent of them. *)
Lemma run_loop_frame B p lines ck col :
  exists d m i c ck' col' new,
    forall cs,
      run_loop B p lines (World ck col cs)
        = Loop d m i c (World ck' col' (cs ++ new)).
Proof.
  induction lines as [|l lines IH] using rev_ind.
  - exists [], [], [], p, ck, col, []. intros cs. by rewrite app_nil_r.
  - destruct IH as (d & m & i & c & ck' & col' & new & IH).
    destruct (accept l) as [[[doc meta] pmid]|] eqn:Hacc.
    + destruct (B <=? Z.of_nat (length (d ++ [doc]))) eqn:Hfull.
      * exists [], [], [], (c + 1), (Some (Dict (Some (c + 1)))),
          (upsert_into col' (d ++ [doc]) (m ++ [meta]) (i ++ [pmid])),
          (new ++ [Upsert (d ++ [doc]) (m ++ [meta]) (i ++ [pmid])]).
        intros cs. rewrite run_loop_snoc, IH. unfold loop_body.
        rewrite Hacc. cbn. rewrite Hfull.
        unfold _save_checkpoint, upsert. cbn. by rewrite <- app_assoc.
      * exists (d ++ [doc]), (m ++ [meta]), (i ++ [pmid]), (c + 1), ck', col', new.
        intros cs. rewrite run_loop_snoc, IH. unfold loop_body.
        rewrite Hacc. cbn. by rewrite Hfull.
    + exists d, m, i, (c + 1), ck', col', new.
      intros cs. rewrite run_loop_snoc, IH. unfold loop_body. by rewrite Hacc.
Qed.

Lemma index_papers_frame lines B ck col :
  exists ck' col' new,
    forall cs,
      index_papers (Some lines) B (World ck col cs) = World ck' col' (cs ++ new).
Proof.
  unfold index_papers. cbn [checkpoint].
  destruct (run_loop_frame B (_load_checkpoint ck)
              (skip_lines (_load_checkpoint ck) lines) ck col)
    as (d & m & i & c & ck' & col' & new & Hrun).
  destruct d as [|doc d].
  - exists ck', col', new. intros cs. by rewrite Hrun.
  - exists (Some (Dict (Some c))), (upsert_into col' (doc :: d) m i),
      (new ++ [Upsert (doc :: d) m i]).
    intros cs. rewrite Hrun.
    unfold flush, _save_checkpoint, upsert. cbn. by rewrite <- app_assoc.
Qed.

(** C7.  After [reset_db] the checkpoint file is absent, the collection
    has been deleted and created again and is empty, and the next
    [index_papers] reads the store from its first line: it leaves the
    checkpoint and the collection that indexing the same store into a
    newly created one leaves, and makes the same calls. *)
Theorem reset_db_complete w :
  let w' := reset_db w in
  checkpoint w' = None
  /\ collection w' = ∅
  /\ calls w' = calls w ++ [DeleteCollection "pubmed_papers";
                            GetOrCreateCollection "pubmed_papers"]
  /\ _load_checkpoint (checkpoint w') = 0
  /\ (forall lines B,
        index_papers (Some lines) B w' = flush (run_loop B 0 lines w'))
  /\ (forall lines B,
        let again := index_papers (Some lines) B w' in
        let fresh := index_papers (Some lines) B (World None ∅ []) in
        checkpoint again = checkpoint fresh
        /\ collection again = collection fresh
        /\ calls again = calls w' ++ calls fresh)
  /\ calls (reset_db (__init__ (World (Some Unreadable) ∅ []))) =
       [GetOrCreateCollection "pubmed_papers";
        DeleteCollection "pubmed_papers";
        GetOrCreateCollection "pubmed_papers"].
Proof.
  cbn zeta. repeat split.
  all: destruct (index_papers_frame lines B None ∅) as (ck' & col' & new & H).
  all: unfold reset_db; by rewrite !H.
Qed.

End Indexer.

(** ** Document template and query path *)

Section Query.
Import VectorStore.

Lemma append_cons a s t : String a s +:+ t = String a (s +:+ t).
Proof. reflexivity. Qed.

Lemma append_nil t : "" +:+ t = t.
Proof. reflexivity. Qed.









Lemma scope_metas g ids metas documents :
  scope g ids metas documents !! "metas" = Some (Metas metas).
Proof.
  unfold scope. rewrite lookup_insert_ne by done. by rewrite lookup_insert_eq.
Qed.

(** No name bound in the legacy [query] is spelled [metadatas]. *)
Lemma legacy_scope_metadatas ids metas documents :
  scope LegacyStore.module_globals ids metas documents !! "metadatas" = None.
Proof.
  unfold scope. rewrite !lookup_insert_ne by done.
  apply not_elem_of_list_to_map. rewrite <- list_fmap_compose.
  cbn. rewrite !not_elem_of_cons. repeat split; try done. apply not_elem_of_nil.
Qed.

(** The loop of the current [query] on lists of matching lengths. *)
Lemma query_loop_metas g ids0 metas documents ids :
  forall i candidates,
    length metas = (i + length ids)%nat ->
    length documents = (i + length ids)%nat ->
    exists new,
      query_loop "metas" (scope g ids0 metas documents) documents i ids candidates
        = Py.Return (candidates ++ new)
      /\ length new = length ids
      /\ forall j doc_id meta,
           ids !! j = Some doc_id -> metas !! (i + j)%nat = Some meta ->
           exists doc_text,
             documents !! (i + j)%nat = Some doc_text
             /\ new !! j = Some (make_candidate doc_id meta doc_text).
Proof.
  induction ids as [|doc_id ids IH]; intros i candidates Hm Hd.
  - exists []. rewrite app_nil_r. repeat split. by intros [|j].
  - cbn [length] in *. cbn [query_loop]. unfold subscript. rewrite scope_metas.
    destruct (lookup_lt_is_Some_2 metas i ltac:(lia)) as [m Hmi].
    destruct (lookup_lt_is_Some_2 documents i ltac:(lia)) as [d Hdi].
    rewrite Hmi, Hdi.
    destruct (IH (S i) (candidates ++ [make_candidate doc_id m d])
                ltac:(lia) ltac:(lia)) as (new & Hrun & Hlen & Hnth).
    exists (make_candidate doc_id m d :: new).
    rewrite Hrun, <- app_assoc. split; [done|]. split; [cbn; lia|].
    intros [|j] doc_id' meta Hid Hmeta; cbn in Hid.
    + rewrite Nat.add_0_r in *. exists d. split; [done|]. cbn. congruence.
    + replace (i + S j)%nat with (S i + j)%nat in * by lia.
      destruct (Hnth j doc_id' meta Hid Hmeta) as (doc_text & ? & ?).
      by exists doc_text.
Qed.

(** C8.  On a query result whose first id list is not empty, the legacy
    [query] of src/vector_store.py raises instead of returning
    candidates; on a well-formed result the exception is the NameError of
    the unbound name [metadatas], while [query] of
    src/src/vector_store.py returns one candidate per id, whose title,
    journal and year are read from the metadata of that same result. *)
Theorem query_variants_differ :
  (forall results ids rest,
     r_ids results = ids :: rest -> ids <> [] ->
     exists e, LegacyStore.query results = Py.Raise e)
  /\ (forall results ids metas documents rest_i rest_m rest_d,
       r_ids results = ids :: rest_i ->
       r_metadatas results = metas :: rest_m ->
       r_documents results = documents :: rest_d ->
       ids <> [] ->
       length metas = length ids ->
       length documents = length ids ->
       LegacyStore.query results = Py.Raise (Py.NameError "metadatas")
       /\ exists candidates,
           query results = Py.Return candidates
           /\ length candidates = length ids
           /\ forall i doc_id meta,
                ids !! i = Some doc_id -> metas !! i = Some meta ->
                exists c,
                  candidates !! i = Some c
                  /\ c_pmid c = doc_id
                  /\ c_title c = default "" (meta !! "title")
                  /\ c_journal c = default "" (meta !! "journal")
                  /\ c_year c = default "" (meta !! "year")).
Proof.
  split.
  - intros results ids rest Hids Hne.
    unfold LegacyStore.query, query_via. rewrite Hids.
    destruct (r_metadatas results) as [|metas ?]; [by eexists|].
    destruct (r_documents results) as [|documents ?]; [by eexists|].
    destruct ids as [|doc_id ids]; [done|].
    cbn [query_loop]. unfold subscript. rewrite legacy_scope_metadatas. by eexists.
  - intros results ids metas documents rest_i rest_m rest_d Hids Hmetas Hdocs Hne Hm Hd.
    split.
    + unfold LegacyStore.query, query_via. rewrite Hids, Hmetas, Hdocs.
      destruct ids as [|doc_id ids]; [done|].
      cbn [query_loop]. unfold subscript. by rewrite legacy_scope_metadatas.
    + unfold query, query_via. rewrite Hids, Hmetas, Hdocs.
      destruct (query_loop_metas module_globals ids metas documents ids 0 []
                  ltac:(cbn; lia) ltac:(cbn; lia)) as (new & Hrun & Hlen & Hnth).
      exists new. split; [done|]. split; [done|].
      intros i doc_id meta Hid Hmeta.
      destruct (Hnth i doc_id meta Hid Hmeta) as (doc_text & _ & Hc).
      by exists (make_candidate doc_id meta doc_text).
Qed.

(** At the query result of tests/test_vector_store.py. *)
Lemma query_variants_differ_witness :
  let meta : gmap string string :=
    <[ "title" := "Test Title" ]> (<[ "journal" := "Test Journal" ]> (
    <[ "year" := "2023" ]> ∅)) in
  let results :=
    QueryResult [["12345"]] [[meta]]
                [["Title: Test Title" +:+ Py.newline +:+ "Abstract: Test Abstract"]] in
  LegacyStore.query results = Py.Raise (Py.NameError "metadatas")
  /\ exists candidates,
      query results = Py.Return candidates /\ length candidates = 1%nat.
Proof.
  intros meta results.
  destruct (proj2 query_variants_differ results ["12345"] [meta]
              ["Title: Test Title" +:+ Py.newline +:+ "Abstract: Test Abstract"]
              [] [] [] eq_refl eq_refl eq_refl ltac:(discriminate) eq_refl eq_refl)
    as (Hlegacy & candidates & Hq & Hlen & _).
  split; [exact Hlegacy|]. exists candidates. split; [exact Hq | exact Hlen].
Defined.

End Query.

(** ** Record codec *)

Section Codec.
Import Parser.

Lemma process_file_one elem out :
  process_file [elem] out =
    match parse_article elem with Some data => out ++ [data] | None => out end.
Proof. reflexivity. Qed.

Lemma store_line_empty_pmid a :
  pmid a = "" -> VectorStore.accept (store_line a) = None.
Proof.
  intros H. unfold store_line, VectorStore.accept.
  rewrite lookup_insert_eq, H. reflexivity.
Qed.

(** C2 (as the code has it).  [parse_article] drops an element exactly
    when its [MedlineCitation] child or the [Article] child of that is
    absent.  The pmid of a record it returns is the text of the first
    [PMID] child, the empty string when that child is absent or has no
    text: such an element is not dropped, [process_file] writes its
    record to the store, and [index_papers] does not accept that line. *)
Theorem parse_article_drops_without_parent elem :
  (parse_article elem = None <->
     find elem "MedlineCitation" = None
     \/ exists medline, find elem "MedlineCitation" = Some medline
                        /\ find medline "Article" = None)
  /\ (forall medline article,
        find elem "MedlineCitation" = Some medline ->
        find medline "Article" = Some article ->
        exists a,
          parse_article elem = Some a
          /\ pmid a = extract_text (find medline "PMID")
          /\ (forall out, process_file [elem] out = out ++ [a])
          /\ (extract_text (find medline "PMID") = "" ->
              pmid a = "" /\ VectorStore.accept (store_line a) = None)).
Proof.
  split.
  - unfold parse_article.
    destruct (find elem "MedlineCitation") as [medline|]; [|by split; [left|]].
    destruct (find medline "Article") as [article|] eqn:Harticle.
    + split; [done|]. intros [?|(m & Hm & Ha)]; [done|].
      injection Hm as <-. congruence.
    + split; [|done]. intros _. right. by exists medline.
  - intros medline article Hm Ha.
    unfold parse_article. rewrite Hm, Ha. eexists. split; [reflexivity|].
    split; [reflexivity|]. split.
    + intros out. rewrite process_file_one. unfold parse_article.
      by rewrite Hm, Ha.
    + intros Hempty. split; [exact Hempty|]. by apply store_line_empty_pmid.
Qed.

(** At an article element that has a title and no [PMID]. *)
Lemma parse_article_drops_without_parent_witness :
  let article := Element "Article" None ∅ [Element "ArticleTitle" (Some "T") ∅ []] in
  let medline := Element "MedlineCitation" None ∅ [article] in
  let elem := Element "PubmedArticle" None ∅ [medline] in
  exists a, parse_article elem = Some a /\ pmid a = "".
Proof.
  intros article medline elem.
  destruct (proj2 (parse_article_drops_without_parent elem) medline article
              eq_refl eq_refl) as (a & Hparse & _ & _ & Hempty).
  exists a. split; [exact Hparse|]. exact (proj1 (Hempty eq_refl)).
Defined.

(** C2 (as stated).  An element with a title and no [PMID] is not
    dropped: [parse_article] returns a record whose pmid is empty and
    [process_file] writes it to the store. *)
Lemma parse_article_empty_pmid_counterexample :
  let article := Element "Article" None ∅ [Element "ArticleTitle" (Some "T") ∅ []] in
  let medline := Element "MedlineCitation" None ∅ [article] in
  let elem := Element "PubmedArticle" None ∅ [medline] in
  find medline "PMID" = None
  /\ parse_article elem = Some (Article "" "T" "" [] "" "" "" "" [] [] [] [] [])
  /\ process_file [elem] [] = [Article "" "T" "" [] "" "" "" "" [] [] [] [] []]
  /\ pmid <$> parse_all [[elem]] = [""].
Proof. by vm_compute. Qed.

End Codec.

(** ** Fetcher *)

Section Fetcher.
Import Downloader.

Implicit Types (local : option (list byte)) (t : turn) (remote : nat -> turn).

Lemma attempt_loop_cons remote attempt rest local :
  attempt_loop remote (attempt :: rest) local =
    match attempt_body local (remote attempt) with
    | (Completed, local', events) => (true, local', events)
    | (Raised e, local', events) =>
        if is_retried e then
          let r := attempt_loop remote rest local' in
          (r.1.1, r.1.2, events ++ [Sleep (wait_time attempt)] ++ r.2)
        else (false, local', events)
    end.
Proof. reflexivity. Qed.

(** The events of one pass: the probe, then possibly the GET with the
    header computed from the size on disk, then possibly [open]. *)
Lemma attempt_body_events local t :
  let h := resume_header (getsize local) in
  let events := (attempt_body local t).2 in
  events = [Head]
  \/ events = [Head; Get h]
  \/ exists m, events = [Head; Get h; Open m].
Proof.
  cbn zeta. unfold attempt_body.
  repeat case_match; cbn; eauto.
Qed.

Lemma attempt_body_no_sleep local t : sleeps (attempt_body local t).2 = [].
Proof.
  destruct (attempt_body_events local t) as [H|[H|[m H]]];
    cbn zeta in H; by rewrite H.
Qed.

Lemma sleeps_app ev ev' : sleeps (ev ++ ev') = sleeps ev ++ sleeps ev'.
Proof. unfold sleeps. apply omap_app. Qed.

(** C4.  In every attempt the size [k] is the size of the local file as
    the attempt finds it (0 when there is none).  A GET of that attempt
    carries [Range: bytes=k-] when [k > 0] and no range header when
    [k = 0].  When the probe gives a total [> 0] with [k >= total], the
    attempt succeeds after the probe alone, with no GET and the file
    untouched; otherwise the GET is issued.  On status 200 the file is
    rewritten from offset 0 with the streamed blocks; on status 206 the
    blocks are appended to the bytes already there.  An attempt that
    follows a retried failure starts from the file that failure left. *)
Theorem resume_from_size_on_disk local t :
  let k := getsize local in
  let header := if 0 <? k then Some k else None in
  let r := attempt_body local t in
  (forall h, In (Get h) r.2 -> h = header)
  /\ (forall total,
        probe t = Py.Return total -> 0 < total -> total <= k ->
        r = (Completed, local, [Head])
        /\ forall remote attempt rest,
            remote attempt = t ->
            attempt_loop remote (attempt :: rest) local = (true, local, [Head]))
  /\ (forall total,
        probe t = Py.Return total -> ~ (0 < total /\ total <= k) ->
        exists rest, r.2 = Head :: Get header :: rest)
  /\ (forall total total' content_length body broken,
        probe t = Py.Return total -> ~ (0 < total /\ total <= k) ->
        on_get t header = GetResponse 200 content_length body broken ->
        update_total total 0 content_length = Py.Return total' ->
        on_open t = None ->
        r.1.2 = Some (stream body broken).1
        /\ r.2 = [Head; Get header; Open wb])
  /\ (forall total total' content_length body broken,
        probe t = Py.Return total -> ~ (0 < total /\ total <= k) ->
        on_get t header = GetResponse 206 content_length body broken ->
        update_total total k content_length = Py.Return total' ->
        on_open t = None ->
        r.1.2 = Some (default [] local ++ (stream body broken).1)
        /\ r.2 = [Head; Get header; Open (if 0 <? k then ab else wb)])
  /\ (forall remote attempt next rest e local' events,
        remote attempt = t ->
        r = (Raised e, local', events) -> is_retried e = true ->
        (forall h, In (Get h) (attempt_body local' (remote next)).2 ->
                   h = if 0 <? getsize local' then Some (getsize local') else None)
        /\ exists tail,
             (attempt_loop remote (attempt :: next :: rest) local).2
             = events ++ [Sleep (wait_time attempt)]
                 ++ (attempt_body local' (remote next)).2 ++ tail).
Proof.
  cbn zeta.
  change (if 0 <? getsize local then Some (getsize local) else None)
    with (resume_header (getsize local)).
  assert (forall local t h, In (Get h) (attempt_body local t).2 ->
                            h = resume_header (getsize local)) as Hget.
  { intros local0 t0 h.
    destruct (attempt_body_events local0 t0) as [H|[H|[m H]]];
      cbn zeta in H; rewrite H; cbn; intuition congruence. }
  split; [by apply Hget|].
  assert (forall total, ~ (0 < total /\ total <= getsize local) ->
          (0 <? total) && (total <=? getsize local) = false) as Hopen.
  { intros total H. apply andb_false_iff.
    destruct (Z.ltb_spec 0 total); [|by left].
    destruct (Z.leb_spec total (getsize local)); [|by right]. lia. }
  split.
  { intros total Hp H0 Hk.
    assert (attempt_body local t = (Completed, local, [Head])) as Hbody.
    { unfold attempt_body. rewrite Hp.
      by rewrite (proj2 (Z.ltb_lt _ _) H0), (proj2 (Z.leb_le _ _) Hk). }
    split; [done|]. intros remote attempt rest Ht.
    by rewrite attempt_loop_cons, Ht, Hbody. }
  split.
  { intros total Hp Hn. unfold attempt_body. rewrite Hp, (Hopen _ Hn).
    repeat case_match; cbn; eauto. }
  split.
  { intros total total' cl body broken Hp Hn Hg Hu Ho.
    unfold attempt_body. rewrite Hp, (Hopen _ Hn), Hg. cbn. rewrite Hu, Ho.
    repeat case_match; cbn; done. }
  split.
  { intros total total' cl body broken Hp Hn Hg Hu Ho.
    unfold attempt_body. rewrite Hp, (Hopen _ Hn), Hg. cbn. rewrite Hu, Ho.
    unfold resume_mode, opened.
    destruct local as [content|]; cbn [getsize default] in *.
    - destruct (Z.ltb_spec 0 (Z.of_nat (length content))) as [Hpos|Hzero].
      + repeat case_match; cbn; done.
      + assert (content = []) as -> by (destruct content; [done|cbn in Hzero; lia]).
        repeat case_match; cbn; done.
    - repeat case_match; cbn; done. }
  intros remote attempt next rest e local' events Ht Hr He.
  split; [by apply Hget|].
  rewrite attempt_loop_cons, Ht, Hr, He. cbn zeta. cbn [snd].
  rewrite attempt_loop_cons.
  destruct (attempt_body local' (remote next)) as [[[|e'] local''] events'].
  - exists []. cbn [snd]. by rewrite app_nil_r.
  - destruct (is_retried e').
    + eexists. cbn [snd]. reflexivity.
    + exists []. cbn [snd]. by rewrite app_nil_r.
Qed.

(** At a file of five bytes of which three are on disk. *)
Lemma resume_from_size_on_disk_witness :
  let content := [x01; x02; x03; x04; x05] in
  let r := attempt_body (Some [x01; x02; x03]) (ranged_server content) in
  r.1.2 = Some content /\ r.2 = [Head; Get (Some 3); Open ab].
Proof.
  intros content.
  exact (proj1 (proj2 (proj2 (proj2 (proj2
           (resume_from_size_on_disk (Some [x01; x02; x03]) (ranged_server content))))))
           5 5 (Length 2) [[x04; x05]] None
           eq_refl ltac:(cbn; lia) eq_refl eq_refl eq_refl).
Defined.

(** The loop over the attempts [first, first + 1, ...]: the sleeps are
    the backoff times of the attempts that were retried, in order; the
    loop fails only when every attempt was retried or when one attempt
    raised an exception that is not retried. *)
Lemma attempt_loop_sleeps remote count :
  forall first local,
    let r := attempt_loop remote (seq first count) local in
    exists n,
      (n <= count)%nat
      /\ sleeps r.2 = wait_time <$> seq first n
      /\ (r.1.1 = true -> (n < count)%nat)
      /\ (r.1.1 = false ->
          n = count
          \/ exists file e file' events,
               attempt_body file (remote (first + n)%nat) = (Raised e, file', events)
               /\ is_retried e = false).
Proof.
  induction count as [|count IH]; intros first local; cbn zeta.
  - exists 0%nat. cbn. repeat split; [lia | done | by left].
  - cbn [seq]. rewrite attempt_loop_cons.
    pose proof (attempt_body_no_sleep local (remote first)) as Hquiet.
    destruct (attempt_body local (remote first)) as [[[|e] local'] events] eqn:Hbody;
      cbn [snd] in Hquiet.
    + exists 0%nat. cbn. repeat split; [lia | done | lia | done].
    + destruct (is_retried e) eqn:He.
      * destruct (IH (S first) local') as (n & Hn & Hs & Hok & Hfail).
        cbn zeta in *. exists (S n). cbn [fst snd].
        repeat split; [lia | | intros H; specialize (Hok H); lia |].
        -- rewrite !sleeps_app, Hquiet, Hs. done.
        -- intros H. destruct (Hfail H) as [->|(file & e' & file' & ev' & Hb & Hne)];
             [by left|right].
           exists file, e', file', ev'.
           by replace (first + S n)%nat with (S first + n)%nat by lia.
      * exists 0%nat. cbn [fst snd]. rewrite Nat.add_0_r.
        repeat split; [lia | done | done |].
        intros _. right. by exists local, e, local', events.
Qed.

(** C5 (as the code has it).  An attempt that raises a request
    exception, ChunkedEncodingError or ConnectionError outside the probe
    is followed by a sleep of [5 * 2^attempt] seconds and the next
    attempt, started on the file that attempt left.  A request exception
    raised by the probe is absorbed: the total counts as unknown and the
    attempt goes on.  Any other exception ends the loop at once with a
    failure.  Hence the sleeps of a download are [5, 10, 20, ...], one
    per retried attempt, and [download_file] returns [None] only when all
    [max_retries] attempts were retried or one attempt raised an
    exception that is not retried. *)
Theorem retry_with_backoff remote local :
  (forall attempt rest e local' events,
     attempt_body local (remote attempt) = (Raised e, local', events) ->
     is_retried e = true ->
     attempt_loop remote (attempt :: rest) local =
       let r := attempt_loop remote rest local' in
       (r.1.1, r.1.2, events ++ [Sleep (5 * 2 ^ Z.of_nat attempt)] ++ r.2))
  /\ (forall attempt rest e local' events,
        attempt_body local (remote attempt) = (Raised e, local', events) ->
        is_retried e = false ->
        attempt_loop remote (attempt :: rest) local = (false, local', events))
  /\ (forall t e,
        on_head t = HeadRaises e -> is_request_exception e = true ->
        probe t = Py.Return 0)
  /\ (forall filename dest_dir max_retries,
        let r := download_file filename remote dest_dir max_retries local in
        exists n,
          (n <= Z.to_nat max_retries)%nat
          /\ sleeps r.2 = (fun attempt => 5 * 2 ^ Z.of_nat attempt) <$> seq 0 n
          /\ (r.1.1 = None ->
              n = Z.to_nat max_retries
              \/ exists file e file' events,
                   attempt_body file (remote n) = (Raised e, file', events)
                   /\ is_retried e = false)).
Proof.
  split.
  { intros attempt rest e local' events Hb He.
    by rewrite attempt_loop_cons, Hb, He. }
  split.
  { intros attempt rest e local' events Hb He.
    by rewrite attempt_loop_cons, Hb, He. }
  split.
  { intros t e Hh He. unfold probe. by rewrite Hh, He. }
  intros filename dest_dir max_retries. cbn zeta. unfold download_file, range.
  destruct (attempt_loop_sleeps remote (Z.to_nat max_retries) 0%nat local)
    as (n & Hn & Hs & _ & Hfail).
  cbn zeta in *. exists n. cbn [fst snd]. split; [done|]. split; [done|].
  intros Hnone. apply Hfail.
  by destruct (attempt_loop remote (seq 0 (Z.to_nat max_retries)) local).1.1.
Qed.

(** At a remote end whose stream breaks in the first attempt. *)
Lemma retry_with_backoff_witness :
  let broken := Turn (HeadResponse 200 (Length 2))
                     (fun _ => GetResponse 200 (Length 2) [[x01]]
                                 (Some Py.ChunkedEncodingError))
                     None in
  let remote := fun attempt : nat =>
    match attempt with O => broken | _ => ranged_server [x01; x02] end in
  attempt_loop remote [0; 1]%nat None
    = (true, Some [x01; x02],
       [Head; Get None; Open wb; Sleep 5; Head; Get (Some 1); Open ab]).
Proof.
  intros broken remote.
  rewrite (proj1 (retry_with_backoff remote None) 0%nat [1%nat]
             Py.ChunkedEncodingError (Some [x01]) [Head; Get None; Open wb]
             eq_refl eq_refl).
  reflexivity.
Defined.

(** C5 (as stated).  The probe times out and then [open] fails: no sleep
    follows the error of the probe, and [download_file] returns [None]
    after the first of five attempts. *)
Lemma retry_with_backoff_counterexample :
  let t := Turn (HeadRaises Py.RequestException)
                (fun _ => GetResponse 200 (Length 1) [[x01]] None)
                (Some Py.OSError) in
  download_file "f.xml.gz" (fun _ => t) "data/raw" 5 None
    = (None, None, [Head; Get None; Open wb]).
Proof. reflexivity. Qed.

(** C6 (as the code has it).  When the stream of an attempt ends without
    an exception and the total is known ([> 0]), a local file shorter
    than the total makes the attempt raise ChunkedEncodingError, so the
    loop sleeps and goes on to the next attempt instead of succeeding; a
    local file at least as long as the total, longer ones included, is a
    success. *)
Theorem truncated_transfer_is_retried local t total0 status_code content_length
    body broken total :
  let k := getsize local in
  let header := resume_header k in
  let mode := if status_code =? 200 then wb else resume_mode k in
  let file := opened mode local ++ (stream body broken).1 in
  let events := [Head; Get header; Open mode] in
  probe t = Py.Return total0 ->
  ~ (0 < total0 /\ total0 <= k) ->
  on_get t header = GetResponse status_code content_length body broken ->
  ~ (400 <= status_code < 600) ->
  update_total total0 (if status_code =? 200 then 0 else k) content_length
    = Py.Return total ->
  on_open t = None ->
  (stream body broken).2 = None ->
  0 < total ->
  (Z.of_nat (length file) < total ->
     attempt_body local t = (Raised Py.ChunkedEncodingError, Some file, events)
     /\ forall remote attempt rest,
         remote attempt = t ->
         attempt_loop remote (attempt :: rest) local =
           let r := attempt_loop remote rest (Some file) in
           (r.1.1, r.1.2, events ++ [Sleep (wait_time attempt)] ++ r.2))
  /\ (total <= Z.of_nat (length file) ->
      attempt_body local t = (Completed, Some file, events)).
Proof.
  intros k header mode file events Hp Hn Hg Hst Hu Ho Hend Htotal.
  assert (attempt_body local t =
            (if Z.of_nat (length file) <? total
             then (Raised Py.ChunkedEncodingError, Some file, events)
             else (Completed, Some file, events))) as Hbody.
  { unfold attempt_body. fold k header. rewrite Hp.
    assert ((0 <? total0) && (total0 <=? k) = false) as ->.
    { apply andb_false_iff.
      destruct (Z.ltb_spec 0 total0); [|by left].
      destruct (Z.leb_spec total0 k); [|by right]. lia. }
    rewrite Hg.
    assert ((400 <=? status_code) && (status_code <? 600) = false) as ->.
    { apply andb_false_iff.
      destruct (Z.leb_spec 400 status_code); [|by left].
      destruct (Z.ltb_spec status_code 600); [|by right]. lia. }
    rewrite Hu, Ho. cbn zeta. fold mode file events. rewrite Hend.
    by rewrite (proj2 (Z.ltb_lt 0 total) Htotal). }
  split.
  - intros Hshort. rewrite (proj2 (Z.ltb_lt _ _) Hshort) in Hbody.
    split; [done|]. intros remote attempt rest Ht.
    by rewrite attempt_loop_cons, Ht, Hbody.
  - intros Hlong. by rewrite (proj2 (Z.ltb_ge _ _) Hlong) in Hbody.
Qed.

(** At a stream that ends after one of two announced bytes. *)
Lemma truncated_transfer_is_retried_witness :
  let t := Turn (HeadResponse 200 (Length 2))
                (fun _ => GetResponse 200 (Length 2) [[x01]] None) None in
  attempt_body None t
    = (Raised Py.ChunkedEncodingError, Some [x01], [Head; Get None; Open wb]).
Proof.
  intros t.
  exact (proj1 (proj1 (truncated_transfer_is_retried None t 2 200 (Length 2)
                         [[x01]] None 2
                         eq_refl ltac:(cbn; lia) eq_refl ltac:(lia) eq_refl
                         eq_refl eq_refl ltac:(lia))
                  ltac:(cbn; lia))).
Defined.

(** C6 (as stated).  The probe announces two bytes and the stream
    delivers three: the local file disagrees with the known total, and
    the download succeeds. *)
Lemma oversized_transfer_counterexample :
  let t := Turn (HeadResponse 200 (Length 2))
                (fun _ => GetResponse 200 Missing [[x01; x02; x03]] None) None in
  download_file "f.xml.gz" (fun _ => t) "data/raw" 5 None
    = (Some "data/raw/f.xml.gz", Some [x01; x02; x03], [Head; Get None; Open wb])
  /\ getsize (Some [x01; x02; x03]) <> 2.
Proof. by vm_compute. Qed.

End Fetcher.

(** ** Batches of the indexer *)

Section Batches.
Import VectorStore Entries.

Implicit Types (es : list entry) (batches : list (list entry)).

Lemma docs_app es es' : docs (es ++ es') = docs es ++ docs es'.
Proof. apply fmap_app. Qed.

Lemma metas_app es es' : metas (es ++ es') = metas es ++ metas es'.
Proof. apply fmap_app. Qed.

Lemma keys_app es es' : keys (es ++ es') = keys es ++ keys es'.
Proof. apply fmap_app. Qed.

Lemma upsert_into_entries c es :
  upsert_into c (docs es) (metas es) (keys es) = insert_all c es.
Proof.
  unfold upsert_into, insert_all, docs, metas, keys.
  revert c. induction es as [|e es IH]; intros c; [done|]. cbn. apply IH.
Qed.

Lemma insert_all_app c es es' :
  insert_all c (es ++ es') = insert_all (insert_all c es) es'.
Proof. apply foldl_app. Qed.

Lemma run_loop_position B p lines w :
  current_line (run_loop B p lines w) = p + Z.of_nat (length lines).
Proof.
  induction lines as [|l lines IH] using rev_ind; [cbn; lia|].
  rewrite run_loop_snoc, length_app. unfold loop_body.
  destruct (accept l) as [[[doc meta] pmid]|]; [destruct (B <=? _)|]; cbn; lia.
Qed.

(** The state of the loop after any prefix of the lines, for any batch
    size: the accepted entries so far are the batches upserted, in order,
    followed by the pending batch; and the lines up to the position in
    the checkpoint file hold exactly the entries upserted. *)
Lemma run_loop_entries B p lines w :
  exists batches pending,
    let s := run_loop B p lines w in
    accepted lines = concat batches ++ pending
    /\ documents s = docs pending
    /\ metadatas s = metas pending
    /\ ids s = keys pending
    /\ calls (env s) = calls w ++ (as_upsert <$> batches)
    /\ collection (env s) = insert_all (collection w) (concat batches)
    /\ Forall (fun b => Z.of_nat (length b) = Z.max B 1) batches
    /\ Z.of_nat (length pending) < Z.max B 1
    /\ ((batches = [] /\ checkpoint (env s) = checkpoint w)
        \/ exists q,
             checkpoint (env s) = Some (Dict (Some (p + Z.of_nat q)))
             /\ (0 < q <= length lines)%nat
             /\ accepted (take q lines) = concat batches).
Proof.
  induction lines as [|l lines IH] using rev_ind.
  - exists [], []. cbn. rewrite app_nil_r.
    repeat split; [constructor | lia | by left].
  - destruct IH as (batches & pending & Hacc & Hd & Hm & Hi & Hc & Hcol & Hfull
                    & Hlt & Hck).
    cbn zeta in *. rewrite run_loop_snoc, accepted_snoc.
    pose proof (run_loop_position B p lines w) as Hcur.
    set (s := run_loop B p lines w) in *.
    assert (forall q, (0 < q <= length lines)%nat ->
              (0 < q <= length (lines ++ [l]))%nat
              /\ take q (lines ++ [l]) = take q lines) as Hkeep.
    { intros q Hq. rewrite length_app, take_app_le by lia. split; [lia|done]. }
    unfold loop_body.
    destruct (accept l) as [[[doc meta] pmid]|] eqn:Hl; cbn [from_option].
    + rewrite Hd, Hm, Hi.
      replace (docs pending ++ [doc]) with (docs (pending ++ [(doc, meta, pmid)]))
        by by rewrite docs_app.
      replace (metas pending ++ [meta]) with (metas (pending ++ [(doc, meta, pmid)]))
        by by rewrite metas_app.
      replace (keys pending ++ [pmid]) with (keys (pending ++ [(doc, meta, pmid)]))
        by by rewrite keys_app.
      set (batch := pending ++ [(doc, meta, pmid)]).
      assert (length (docs batch) = S (length pending)) as Hlen.
      { unfold docs, batch. rewrite length_fmap, length_app. cbn. lia. }
      rewrite Hlen.
      destruct (Z.leb_spec B (Z.of_nat (S (length pending)))) as [Hge|Hroom].
      * exists (batches ++ [batch]), []. cbn.
        rewrite concat_app, fmap_app, Hacc, Hc, Hcol. cbn.
        rewrite !app_nil_r, upsert_into_entries, insert_all_app, <- !app_assoc.
        split; [done|]. do 5 (split; [done|]). split.
        { apply Forall_app. split; [done|]. constructor; [|constructor].
          unfold batch. rewrite length_app. cbn. lia. }
        split; [lia|]. right. exists (length (lines ++ [l])).
        rewrite firstn_all, Hcur, length_app, accepted_snoc, Hl, Hacc. cbn.
        split; [do 3 f_equal; lia|]. split; [lia|]. by rewrite <- app_assoc.
      * exists batches, batch. cbn. rewrite Hacc, <- app_assoc.
        split; [done|]. do 6 (split; [done|]). split.
        { unfold batch. rewrite length_app. cbn. lia. }
        destruct Hck as [Hck|(q & Hck & Hq & Hcov)]; [by left|right].
        exists q. destruct (Hkeep q Hq) as [Hq' ->].
        split; [done|]. split; [exact Hq'|done].
    + exists batches, pending. cbn. rewrite app_nil_r.
      do 8 (split; [done|]).
      destruct Hck as [Hck|(q & Hck & Hq & Hcov)]; [by left|right].
      exists q. destruct (Hkeep q Hq) as [Hq' ->].
        split; [done|]. split; [exact Hq'|done].
Qed.

Lemma docs_nil es : docs es = [] -> es = [].
Proof. by destruct es. Qed.

(** A whole run: the batches upserted, in order, are the accepted
    entries of the lines after the checkpoint. *)
Lemma index_papers_entries lines B w :
  exists batches,
    let w' := index_papers (Some lines) B w in
    let es := accepted (unread (checkpoint w) lines) in
    calls w' = calls w ++ (as_upsert <$> batches)
    /\ concat batches = es
    /\ collection w' = insert_all (collection w) es
    /\ Forall (fun b => 1 <= Z.of_nat (length b) <= Z.max B 1) batches
    /\ (forall full last, batches = full ++ [last] ->
        Forall (fun b => Z.of_nat (length b) = Z.max B 1) full).
Proof.
  unfold index_papers, unread.
  set (p := _load_checkpoint (checkpoint w)).
  destruct (run_loop_entries B p (skip_lines p lines) w)
    as (batches & pending & Hacc & Hd & Hm & Hi & Hc & Hcol & Hfull & Hlt & _).
  cbn zeta in *. set (s := run_loop B p (skip_lines p lines) w) in *.
  unfold flush. destruct (documents s) as [|d ds] eqn:Hdocs.
  - symmetry in Hd. apply docs_nil in Hd as ->. rewrite app_nil_r in Hacc.
    exists batches. rewrite Hacc. repeat split; try done.
    + eapply Forall_impl; [exact Hfull|]. cbn. lia.
    + intros full last ->. by apply Forall_app in Hfull as [? _].
  - exists (batches ++ [pending]).
    assert (pending <> []) as Hne by (by intros ->).
    cbn. rewrite Hd, Hm, Hi, Hc, Hcol, Hacc, fmap_app, concat_app.
    cbn. rewrite app_nil_r, upsert_into_entries, insert_all_app, <- app_assoc.
    repeat split.
    + apply Forall_app. split.
      * eapply Forall_impl; [exact Hfull|]. cbn. lia.
      * constructor; [|constructor]. destruct pending; [done|]. cbn in *. lia.
    + intros full last Heq. by apply app_inj_tail in Heq as [<- _].
Qed.

Lemma upserted_ids_app cs cs' :
  upserted_ids (cs ++ cs') = upserted_ids cs ++ upserted_ids cs'.
Proof. unfold upserted_ids. apply omap_app. Qed.

Lemma upserted_ids_batches batches :
  concat (upserted_ids (as_upsert <$> batches)) = keys (concat batches).
Proof.
  induction batches as [|b batches IH]; [done|].
  rewrite fmap_cons.
  change (upserted_ids (as_upsert b :: (as_upsert <$> batches)))
    with (keys b :: upserted_ids (as_upsert <$> batches)).
  rewrite !concat_cons, keys_app. by rewrite IH.
Qed.

Lemma index_papers_upserted_ids lines B w :
  concat (upserted_ids (calls (index_papers (Some lines) B w))) =
    concat (upserted_ids (calls w))
      ++ keys (accepted (unread (checkpoint w) lines)).
Proof.
  destruct (index_papers_entries lines B w) as (batches & Hc & Hcat & _).
  cbn zeta in *. rewrite Hc, upserted_ids_app, concat_app, upserted_ids_batches.
  by rewrite Hcat.
Qed.

Lemma index_papers_collection lines B w :
  collection (index_papers (Some lines) B w)
    = insert_all (collection w) (accepted (unread (checkpoint w) lines)).
Proof. by destruct (index_papers_entries lines B w) as (? & _ & _ & H & _). Qed.

(** X1.  In a run of [index_papers] the ids handed to [upsert], read
    through the calls in order, are the ids of the accepted lines after
    the checkpoint, in store order: no accepted line is left out, none is
    upserted twice, and no line before the checkpoint is read again.
    This holds for every batch size and every checkpoint file. *)
Theorem upserts_cover_accepted_lines lines B w :
  let w' := index_papers (Some lines) B w in
  concat (upserted_ids (calls w')) =
    concat (upserted_ids (calls w))
      ++ keys (accepted (unread (checkpoint w) lines)).
Proof.
  destruct (index_papers_entries lines B w) as (batches & Hc & Hcat & _).
  cbn zeta in *. rewrite Hc, upserted_ids_app, concat_app, upserted_ids_batches.
  by rewrite Hcat.
Qed.

(** X2.  Every call [index_papers] makes is an upsert whose three lists
    have the same length, between 1 and [max(batch_size, 1)]; an empty
    batch is never upserted, and every call but the last of the run has
    exactly [max(batch_size, 1)] entries. *)
Theorem upsert_batches_are_aligned lines B w :
  exists new,
    calls (index_papers (Some lines) B w) = calls w ++ new
    /\ Forall (fun c => exists d m i,
                 c = Upsert d m i
                 /\ length d = length i /\ length m = length i
                 /\ 1 <= Z.of_nat (length i) <= Z.max B 1) new
    /\ Forall (fun c => exists d m i,
                 c = Upsert d m i /\ Z.of_nat (length i) = Z.max B 1)
              (removelast new).
Proof.
  destruct (index_papers_entries lines B w) as (batches & Hc & _ & _ & Hsz & Hfull).
  cbn zeta in *. exists (as_upsert <$> batches). split; [done|]. split.
  - apply Forall_fmap. eapply Forall_impl; [exact Hsz|]. intros b Hb.
    cbn in Hb |- *. exists (docs b), (metas b), (keys b).
    unfold docs, metas, keys. rewrite !length_fmap. repeat split; done || lia.
  - destruct batches as [|b0 bs _] using rev_ind; [constructor|].
    rewrite fmap_app. cbn [fmap list_fmap]. rewrite removelast_last.
    apply Forall_fmap. eapply Forall_impl; [exact (Hfull _ _ eq_refl)|].
    intros b Hb. cbn in Hb |- *. exists (docs b), (metas b), (keys b).
    unfold keys. by rewrite length_fmap.
Qed.

(** X6.  The collection a run leaves is the collection before it with
    the accepted entries after the checkpoint written one by one in store
    order; the batch size has no influence on it. *)
Theorem collection_independent_of_batch_size lines B B' w :
  collection (index_papers (Some lines) B w)
    = insert_all (collection w) (accepted (unread (checkpoint w) lines))
  /\ collection (index_papers (Some lines) B w)
     = collection (index_papers (Some lines) B' w).
Proof.
  destruct (index_papers_entries lines B w) as (? & _ & _ & H & _).
  destruct (index_papers_entries lines B' w) as (? & _ & _ & H' & _).
  cbn zeta in *. by rewrite H, H'.
Qed.

(** The checkpoint during the loop is the one found at the start, or a
    position reached since. *)
Lemma run_loop_checkpoint B p lines w :
  let s := run_loop B p lines w in
  checkpoint (env s) = checkpoint w
  \/ exists n, checkpoint (env s) = Some (Dict (Some n))
               /\ p < n <= p + Z.of_nat (length lines).
Proof.
  induction lines as [|l lines IH] using rev_ind; [by left|].
  cbn zeta in *. rewrite run_loop_snoc, length_app.
  pose proof (run_loop_position B p lines w) as Hcur.
  set (s := run_loop B p lines w) in *. unfold loop_body.
  destruct (accept l) as [[[doc meta] pmid]|]; [destruct (B <=? _)|]; cbn.
  - right. eexists. split; [done|]. lia.
  - destruct IH as [IH|(n & IH & Hn)]; [by left|]. right. exists n. split; [done|lia].
  - destruct IH as [IH|(n & IH & Hn)]; [by left|]. right. exists n. split; [done|lia].
Qed.

Lemma length_skip_lines p lines :
  p + Z.of_nat (length (skip_lines p lines)) <= Z.max p (Z.of_nat (length lines)).
Proof.
  unfold skip_lines. destruct (Z.ltb_spec 0 p); [|lia].
  rewrite length_drop. lia.
Qed.

(** X4.  Across a run of [index_papers] the position [_load_checkpoint]
    reads never decreases, and it never exceeds the larger of its value
    before the run and the number of lines of the store. *)
Theorem checkpoint_is_monotone lines B w :
  let p := _load_checkpoint (checkpoint w) in
  let p' := _load_checkpoint (checkpoint (index_papers (Some lines) B w)) in
  p <= p' <= Z.max p (Z.of_nat (length lines)).
Proof.
  cbn zeta. unfold index_papers.
  set (p := _load_checkpoint (checkpoint w)).
  pose proof (length_skip_lines p lines) as Hlen.
  pose proof (run_loop_position B p (skip_lines p lines) w) as Hcur.
  pose proof (run_loop_checkpoint B p (skip_lines p lines) w) as Hck.
  cbn zeta in Hck. set (s := run_loop B p (skip_lines p lines) w) in *.
  unfold flush. destruct (documents s); cbn.
  - destruct Hck as [->|(n & -> & Hn)]; cbn; fold p; lia.
  - lia.
Qed.

(** X5.  When the position of the checkpoint is at least the number of
    lines of the store (right after a run that ended on an accepted
    line, or after the store was rewritten shorter), [index_papers] reads
    no line: it makes no call and leaves collection and checkpoint as
    they are. *)
Theorem stale_checkpoint_indexes_nothing lines B w :
  Z.of_nat (length lines) <= _load_checkpoint (checkpoint w) ->
  index_papers (Some lines) B w = w.
Proof.
  intros Hp. unfold index_papers, skip_lines.
  destruct (Z.ltb_spec 0 (_load_checkpoint (checkpoint w))).
  - rewrite drop_ge by lia. done.
  - destruct lines; [done|]. cbn in Hp. lia.
Qed.

(** After the first run of the test scenario. *)
Lemma stale_checkpoint_indexes_nothing_witness :
  let w1 := index_papers (Some first_four) 2 (World None ∅ []) in
  index_papers (Some first_four) 2 w1 = w1.
Proof.
  intros w1. apply (stale_checkpoint_indexes_nothing first_four 2 w1).
  vm_compute. discriminate.
Defined.

Lemma loop_body_below_one B s l :
  B <= 1 -> documents s = [] ->
  loop_body B s l = loop_body 1 s l /\ documents (loop_body 1 s l) = [].
Proof.
  intros HB Hd. unfold loop_body. rewrite Hd.
  destruct (accept l) as [[[doc meta] pmid]|]; cbn; [|done].
  change (Z.of_nat 1) with 1. destruct (Z.leb_spec B 1); [done|lia].
Qed.

(** X3.  A batch size of 1 or less (0 and negative values included)
    makes [index_papers] upsert every accepted line on its own: the run
    is the run with batch size 1. *)
Theorem batch_size_below_one_acts_as_one store B w :
  B <= 1 -> index_papers store B w = index_papers store 1 w.
Proof.
  intros HB. destruct store as [lines|]; [|done]. unfold index_papers.
  set (p := _load_checkpoint (checkpoint w)).
  assert (forall ls s, documents s = [] ->
            foldl (loop_body B) s ls = foldl (loop_body 1) s ls) as Hfold.
  { induction ls as [|l ls IH]; intros s Hd; [done|]. cbn [foldl].
    destruct (loop_body_below_one B s l HB Hd) as [-> Hd']. by apply IH. }
  unfold run_loop. by rewrite Hfold.
Qed.

(** At batch size 0 on the store of the test scenario. *)
Lemma batch_size_below_one_acts_as_one_witness :
  upserted_ids (calls (index_papers (Some first_four) 0 (World None ∅ [])))
    = [["0"]; ["1"]; ["2"]; ["3"]].
Proof.
  rewrite (batch_size_below_one_acts_as_one (Some first_four) 0 (World None ∅ []));
    [|lia].
  vm_compute. reflexivity.
Defined.

Lemma insert_all_union c es :
  insert_all c es =
    list_to_map (reverse ((fun e : entry => (e.2, (e.1.1, e.1.2))) <$> es)) ∪ c.
Proof.
  revert c. induction es as [|e es IH]; intros c.
  - cbn. by rewrite (left_id_L ∅ (∪)).
  - cbn [insert_all foldl]. fold (insert_all (<[e.2:=(e.1.1, e.1.2)]> c) es).
    rewrite IH, fmap_cons, reverse_cons, list_to_map_app.
    cbn [list_to_map foldr]. rewrite insert_empty, <- (assoc_L (∪)).
    by rewrite <- insert_union_singleton_l.
Qed.

Lemma insert_all_replay c es1 es2 es3 :
  insert_all (insert_all c (es1 ++ es2)) (es2 ++ es3)
    = insert_all c (es1 ++ es2 ++ es3).
Proof.
  rewrite !insert_all_union, !fmap_app, !reverse_app, !list_to_map_app.
  set (m1 := list_to_map (reverse (_ <$> es1))).
  set (m2 := list_to_map (reverse (_ <$> es2))).
  set (m3 := list_to_map (reverse (_ <$> es3))).
  rewrite <- !(assoc_L (∪)). f_equal.
  rewrite (assoc_L (∪) m2 m2). by rewrite (idemp_L (∪) m2).
Qed.

(** X7.  Replaying lines is harmless.  If the collection already holds
    the entries of the lines [finished ++ replayed], while the checkpoint
    file only records [finished] (a crash between an upsert and the write
    of the checkpoint, or a checkpoint that was lost), then indexing the
    store [finished ++ replayed ++ rest] leaves the collection that one
    uninterrupted run over the whole store leaves, whatever the batch
    sizes. *)
Theorem crash_resume_is_idempotent finished replayed rest B B' c cs f :
  _load_checkpoint f = Z.of_nat (length finished) ->
  let store := finished ++ replayed ++ rest in
  let reached := index_papers (Some (finished ++ replayed)) B (World None c []) in
  let crashed := World f (collection reached) cs in
  collection (index_papers (Some store) B' crashed)
    = collection (index_papers (Some store) B (World None c [])).
Proof.
  intros Hf store reached crashed.
  rewrite !index_papers_collection. unfold crashed, reached.
  rewrite index_papers_collection.
  cbn [collection checkpoint]. unfold unread. rewrite Hf. cbn [_load_checkpoint].
  assert (skip_lines (Z.of_nat (length finished)) store = replayed ++ rest) as ->.
  { unfold skip_lines, store. destruct (Z.ltb_spec 0 (Z.of_nat (length finished))).
    - by rewrite Nat2Z.id, drop_app_length.
    - by destruct finished; [|cbn in *; lia]. }
  unfold skip_lines, store, accepted. cbn. rewrite !omap_app.
  apply insert_all_replay.
Qed.

(** At the test scenario: the collection holds all four records, the
    checkpoint still says 2. *)
Lemma crash_resume_is_idempotent_witness :
  let reached := index_papers (Some first_four) 2 (World None ∅ []) in
  let crashed := World (Some (Dict (Some 2))) (collection reached) [] in
  collection (index_papers (Some first_four) 2 crashed) = collection reached.
Proof.
  intros reached crashed.
  exact (crash_resume_is_idempotent
           (test_record <$> ["0"; "1"]) (test_record <$> ["2"; "3"]) []
           2 2 ∅ [] (Some (Dict (Some 2))) eq_refl).
Defined.

(** The two loops, run over the same lines, keep the same pending batch
    and make the same calls. *)
Lemma legacy_loop_simulation B lines :
  forall (s : loop) (t : LegacyIndexer.loop),
    documents s = LegacyIndexer.documents t ->
    metadatas s = LegacyIndexer.metadatas t ->
    ids s = LegacyIndexer.ids t ->
    calls (env s) = calls (LegacyIndexer.env t) ->
    collection (env s) = collection (LegacyIndexer.env t) ->
    let s' := foldl (loop_body B) s lines in
    let t' := foldl (LegacyIndexer.loop_body B) t lines in
    documents s' = LegacyIndexer.documents t'
    /\ metadatas s' = LegacyIndexer.metadatas t'
    /\ ids s' = LegacyIndexer.ids t'
    /\ calls (env s') = calls (LegacyIndexer.env t')
    /\ collection (env s') = collection (LegacyIndexer.env t')
    /\ checkpoint (LegacyIndexer.env t') = checkpoint (LegacyIndexer.env t).
Proof.
  induction lines as [|l lines IH]; intros s t Hd Hm Hi Hc Hcol; [done|].
  cbn [foldl].
  assert (checkpoint (LegacyIndexer.env (LegacyIndexer.loop_body B t l))
          = checkpoint (LegacyIndexer.env t)) as <-.
  { unfold LegacyIndexer.loop_body.
    destruct (accept l) as [[[doc meta] pmid]|]; [destruct (B <=? _)|]; done. }
  apply IH; unfold loop_body, LegacyIndexer.loop_body;
    destruct (accept l) as [[[doc meta] pmid]|]; try done;
    rewrite Hd; destruct (B <=? _); cbn; by rewrite ?Hm, ?Hi, ?Hc, ?Hcol.
Qed.

(** X8.  Started without a usable checkpoint (absent, unreadable, or
    holding a position of 0 or less), the checkpointed [index_papers]
    makes exactly the calls of the older [index_papers] of
    src/vector_store.py and leaves the same collection; the older one
    never touches the checkpoint file. *)
Theorem checkpointed_indexer_refines_legacy store B w :
  _load_checkpoint (checkpoint w) <= 0 ->
  calls (index_papers store B w) = calls (LegacyIndexer.index_papers store B w)
  /\ collection (index_papers store B w)
     = collection (LegacyIndexer.index_papers store B w)
  /\ checkpoint (LegacyIndexer.index_papers store B w) = checkpoint w.
Proof.
  intros Hp. destruct store as [lines|]; [|done].
  unfold index_papers, LegacyIndexer.index_papers, run_loop, skip_lines.
  destruct (Z.ltb_spec 0 (_load_checkpoint (checkpoint w))); [lia|].
  destruct (legacy_loop_simulation B lines
              (Loop [] [] [] (_load_checkpoint (checkpoint w)) w)
              (LegacyIndexer.Loop [] [] [] w) eq_refl eq_refl eq_refl eq_refl eq_refl)
    as (Hd & Hm & Hi & Hc & Hcol & Hck).
  cbn zeta in *. unfold flush, LegacyIndexer.flush. rewrite <- Hd.
  destruct (documents _); cbn; by rewrite <- ?Hm, <- ?Hi, ?Hc, ?Hcol, ?Hck.
Qed.

(** At the store of the test scenario. *)
Lemma checkpointed_indexer_refines_legacy_witness :
  calls (index_papers (Some first_four) 2 (World None ∅ []))
    = calls (LegacyIndexer.index_papers (Some first_four) 2 (World None ∅ [])).
Proof.
  apply (checkpointed_indexer_refines_legacy (Some first_four) 2 (World None ∅ [])).
  cbn. lia.
Defined.

End Batches.

(** ** What the index gives back *)

Section Retrieval.
Import VectorStore Entries.

Lemma insert_all_lookup_other c (es : list entry) k :
  k ∉ keys es -> insert_all c es !! k = c !! k.
Proof.
  revert c. induction es as [|e es IH]; intros c Hk; [done|].
  unfold keys in Hk. rewrite fmap_cons in Hk. apply not_elem_of_cons in Hk as [Hne Hk].
  cbn [insert_all foldl]. fold (insert_all (<[e.2:=(e.1.1, e.1.2)]> c) es).
  rewrite IH by done. by rewrite lookup_insert_ne.
Qed.

(** X9.  Upsert semantics of a run.  An id carried by an accepted line
    after the checkpoint is mapped, after the run, to the document and
    metadata of the last such line; an id that no such line carries keeps
    the entry it had before the run (nothing is deleted). *)
Theorem collection_holds_last_entry lines B w :
  let es := accepted (unread (checkpoint w) lines) in
  let w' := index_papers (Some lines) B w in
  (forall before doc meta pmid after,
     es = before ++ (doc, meta, pmid) :: after ->
     pmid ∉ keys after ->
     collection w' !! pmid = Some (doc, meta))
  /\ (forall k, k ∉ keys es -> collection w' !! k = collection w !! k).
Proof.
  cbn zeta.
  rewrite index_papers_collection.
  split.
  - intros before doc meta pmid after -> Hlast.
    rewrite insert_all_app. cbn [insert_all foldl].
    fold (insert_all (<[pmid:=(doc, meta)]> (insert_all (collection w) before)) after).
    rewrite insert_all_lookup_other by done. apply lookup_insert_eq.
  - intros k Hk. by apply insert_all_lookup_other.
Qed.

(** At the test scenario: record 2 is found under its id. *)
Lemma collection_holds_last_entry_witness :
  collection (index_papers (Some first_four) 2 (World None ∅ [])) !! "2"
    = Some (doc_text "Title 2" "Abs 2",
            make_meta "2" "Title 2"
              (<[ "pmid" := "2" ]> (<[ "title" := "Title 2" ]> (
               <[ "abstract" := "Abs 2" ]> ∅)))).
Proof.
  refine (proj1 (collection_holds_last_entry first_four 2 (World None ∅ []))
            (omap accept (test_record <$> ["0"; "1"])) _ _ "2"
            (omap accept (test_record <$> ["3"])) _ _).
  - vm_compute. reflexivity.
  - vm_compute. intros H. repeat (inversion H as [|? ? ? H']; clear H; rename H' into H).
Defined.

Lemma length_take n s : (String.length (Py.take n s) <= n)%nat.
Proof.
  revert s. induction n as [|n IH]; intros [|a s]; cbn; try lia.
  specialize (IH s). lia.
Qed.

Lemma take_all n s : (String.length s <= n)%nat -> Py.take n s = s.
Proof.
  revert s. induction n as [|n IH]; intros [|a s] H; cbn in *; try done; try lia.
  rewrite IH; [done|lia].
Qed.

Lemma truthy_opt_some o : Py.truthy_opt o = true -> exists s, o = Some s /\ s <> "".
Proof. destruct o as [[|a s]|]; cbn; try done. intros _. by eexists. Qed.

(** X10.  What [query] shows of an indexed line.  For a line that
    [index_papers] accepts, the id is the line's pmid and is not empty,
    and the candidate built from the stored document and metadata has
    that id, the first 200 characters of the title (the whole title when
    it has at most 200), the journal and year of the line (empty when
    the key is missing) and an empty author list. *)
Theorem indexed_metadata_round_trip data doc meta pmid :
  accept (Object data) = Some (doc, meta, pmid) ->
  let title := default "" (data !! "title") in
  let c := make_candidate pmid meta doc in
  data !! "pmid" = Some pmid /\ pmid <> ""
  /\ c_pmid c = pmid
  /\ c_title c = Py.take 200 title
  /\ (String.length (c_title c) <= 200)%nat
  /\ ((String.length title <= 200)%nat -> c_title c = title)
  /\ c_journal c = default "" (data !! "journal")
  /\ c_year c = default "" (data !! "year")
  /\ c_authors c = [].
Proof.
  intros Hacc title c. cbn in Hacc. fold title in Hacc.
  destruct (Py.truthy_opt (data !! "pmid")) eqn:Hp; [|done].
  apply truthy_opt_some in Hp as (id & Hid & Hne). rewrite Hid in Hacc.
  cbn in Hacc. destruct (negb (Py.truthy title) && _); [done|].
  injection Hacc as <- <- <-.
  assert (c_title c = Py.take 200 title) as Ht.
  { unfold c, make_candidate, make_meta. cbn.
    rewrite lookup_insert_ne by done. by rewrite lookup_insert_eq. }
  repeat split; try done.
  - rewrite Ht. apply length_take.
  - intros Hlen. rewrite Ht. by apply take_all.
Qed.

(** At the first record of the test scenario. *)
Lemma indexed_metadata_round_trip_witness :
  let data : gmap string string :=
    <[ "pmid" := "0" ]> (<[ "title" := "Title 0" ]> (<[ "abstract" := "Abs 0" ]> ∅)) in
  c_title (make_candidate "0" (make_meta "0" "Title 0" data)
             (doc_text "Title 0" "Abs 0")) = "Title 0".
Proof.
  intros data.
  destruct (indexed_metadata_round_trip data (doc_text "Title 0" "Abs 0")
              (make_meta "0" "Title 0" data) "0" eq_refl)
    as (_ & _ & _ & _ & _ & Hwhole & _).
  apply Hwhole. vm_compute. lia.
Defined.

Lemma length_append_str s t :
  String.length (s +:+ t) = (String.length s + String.length t)%nat.
Proof.
  induction s as [|a s IH]; [done|]. rewrite append_cons. cbn. by rewrite IH.
Qed.

Lemma startswith_length sep s :
  Py.startswith sep s = true -> (String.length sep <= String.length s)%nat.
Proof.
  revert s. induction sep as [|a sep IH]; intros s H; [cbn; lia|].
  destruct s as [|b s]; cbn in H; [done|].
  destruct (Ascii.eqb a b); [|done]. specialize (IH s H). cbn. lia.
Qed.

Lemma startswith_app_l sep s r :
  Py.startswith sep s = true -> Py.startswith sep (s +:+ r) = true.
Proof.
  revert s. induction sep as [|a sep IH]; intros s H; [done|].
  destruct s as [|b s]; [done|].
  rewrite append_cons. cbn in *. destruct (Ascii.eqb a b); [by apply IH|done].
Qed.

Lemma startswith_app_long sep s r :
  (String.length sep <= String.length s)%nat ->
  Py.startswith sep (s +:+ r) = Py.startswith sep s.
Proof.
  revert s. induction sep as [|a sep IH]; intros s H; [done|].
  destruct s as [|b s]; cbn in H; [lia|].
  rewrite append_cons. cbn. destruct (Ascii.eqb a b); [|done]. apply IH. lia.
Qed.

Lemma drop_app_long n s r :
  (n <= String.length s)%nat -> Py.drop n (s +:+ r) = Py.drop n s +:+ r.
Proof.
  revert s. induction n as [|n IH]; intros s H; [by destruct s|].
  destruct s as [|a s]; cbn in H; [lia|].
  rewrite append_cons. cbn. apply IH. lia.
Qed.

Lemma find_length sep s a b :
  Py.find sep s = Some (a, b) -> (String.length sep <= String.length s)%nat.
Proof.
  revert a. induction s as [|c s IH]; intros a; cbn [Py.find].
  - destruct (Py.startswith sep "") eqn:Hs; [|done]. intros _.
    by apply startswith_length in Hs.
  - destruct (Py.startswith sep (String c s)) eqn:Hs.
    + intros _. by apply startswith_length in Hs.
    + destruct (Py.find sep s) as [[a' b']|]; [|done]. intros [= <- <-].
      specialize (IH a' eq_refl). cbn. lia.
Qed.

(** What [find] returns are the two sides of an occurrence. *)
Lemma find_split sep s a b :
  Py.find sep s = Some (a, b) -> s = a +:+ sep +:+ b.
Proof.
  assert (forall s, Py.startswith sep s = true ->
            s = sep +:+ Py.drop (String.length sep) s) as Hstart.
  { induction sep as [|x sep IH]; intros t H; [by destruct t|].
    destruct t as [|y t]; cbn in H; [done|].
    destruct (Ascii.eqb_spec x y) as [->|]; [|done].
    rewrite append_cons. cbn. by rewrite <- IH. }
  revert a. induction s as [|c s IH]; intros a; cbn [Py.find].
  - destruct (Py.startswith sep "") eqn:Hs; [|done].
    intros [= <- <-]. by apply Hstart.
  - destruct (Py.startswith sep (String c s)) eqn:Hs.
    + intros [= <- <-]. by apply Hstart.
    + destruct (Py.find sep s) as [[a' b']|] eqn:Hf; [|done].
      intros [= <- <-]. rewrite append_cons. f_equal. by apply IH.
Qed.

(** Text added after [s] does not move the leftmost occurrence in [s]. *)
Lemma find_app_l sep s r a b :
  Py.find sep s = Some (a, b) -> Py.find sep (s +:+ r) = Some (a, b +:+ r).
Proof.
  revert a. induction s as [|c s IH]; intros a.
  - cbn [Py.find]. destruct (Py.startswith sep "") eqn:Hs; [|done].
    intros [= <- <-]. destruct sep; [|done]. rewrite append_nil. by destruct r.
  - intros Hf. pose proof (find_length _ _ _ _ Hf) as Hlen.
    cbn [Py.find] in Hf. rewrite append_cons. cbn [Py.find].
    rewrite <- append_cons, startswith_app_long by done.
    destruct (Py.startswith sep (String c s)) eqn:Hs.
    + injection Hf as <- <-. by rewrite drop_app_long.
    + destruct (Py.find sep s) as [[a' b']|] eqn:Hf'; [|done].
      injection Hf as <- <-. by rewrite (IH a' eq_refl).
Qed.

Lemma find_after_title_label x a b :
  Py.find "Abstract: " x = Some (a, b) ->
  Py.find "Abstract: " ("Title: " +:+ x) = Some ("Title: " +:+ a, b).
Proof.
  intros H. rewrite !append_cons, !append_nil.
  cbn [Py.find]. cbn -[Py.find]. by rewrite H.
Qed.

(** X11.  The converse of the abstract round trip.  When the title of an
    indexed line contains ["Abstract: "], the abstract [query] reads back
    from the stored document is not the abstract of the line: it is what
    follows the first ["Abstract: "] of the title, then the rest of the
    template and the real abstract. *)
Theorem abstract_lost_when_title_has_marker title abstract :
  Py.contains "Abstract: " title = true ->
  exists a b,
    title = a +:+ "Abstract: " +:+ b
    /\ parse_abstract (doc_text title abstract)
       = b +:+ Py.newline +:+ "Abstract: " +:+ abstract
    /\ parse_abstract (doc_text title abstract) <> abstract.
Proof.
  intros Hc. unfold Py.contains in Hc.
  destruct (Py.find "Abstract: " title) as [[a b]|] eqn:Hf; [|done].
  exists a, b. split; [by apply find_split|].
  assert (parse_abstract (doc_text title abstract)
          = b +:+ Py.newline +:+ "Abstract: " +:+ abstract) as Hp.
  { apply (find_app_l _ _ (Py.newline +:+ "Abstract: " +:+ abstract)) in Hf.
    apply find_after_title_label in Hf.
    unfold parse_abstract, Py.contains, Py.split1, doc_text. by rewrite Hf. }
  split; [done|]. rewrite Hp. intros Heq.
  apply (f_equal String.length) in Heq. rewrite !length_append_str in Heq.
  cbn in Heq. lia.
Qed.

(** At a title that quotes the marker. *)
Lemma abstract_lost_when_title_has_marker_witness :
  parse_abstract (doc_text "On Abstract: x" "real") <> "real".
Proof.
  destruct (abstract_lost_when_title_has_marker "On Abstract: x" "real" eq_refl)
    as (a & b & _ & _ & Hne).
  exact Hne.
Defined.

End Retrieval.

(** ** Record codec, further *)

Section CodecFurther.
Import Parser Pipeline.

Lemma process_file_omap archive out :
  process_file archive out = out ++ omap parse_article archive.
Proof.
  revert out. induction archive as [|elem archive IH]; intros out.
  - by rewrite app_nil_r.
  - unfold process_file in *. cbn [foldl]. rewrite IH. cbn.
    destruct (parse_article elem); cbn; [by rewrite <- app_assoc|done].
Qed.

Lemma length_omap_le {A B} (f : A -> option B) (l : list A) :
  (length (omap f l) <= length l)%nat.
Proof. induction l as [|x l IH]; cbn; [lia|]. destruct (f x); cbn; lia. Qed.

(** X12.  [process_file] only appends: what the output already holds
    stays in front, unchanged, and what is added are the records of the
    elements of the archive that [parse_article] does not drop, in
    document order.  [parse_all] therefore yields the records of all
    archives in the order given, the same whether the elements arrive in
    one archive or split over several, and never more records than there
    are elements. *)
Theorem parse_all_appends_in_order archives :
  (forall archive out,
     process_file archive out = out ++ omap parse_article archive)
  /\ parse_all archives = omap parse_article (concat archives)
  /\ (forall more, parse_all (archives ++ more) = parse_all archives ++ parse_all more)
  /\ (length (parse_all archives) <= length (concat archives))%nat.
Proof.
  assert (forall archives out,
            foldl (fun out archive => process_file archive out) out archives
            = out ++ omap parse_article (concat archives)) as Hfold.
  { induction archives0 as [|archive archives0 IH]; intros out.
    - by rewrite app_nil_r.
    - cbn [foldl concat]. rewrite IH, process_file_omap, omap_app.
      by rewrite <- app_assoc. }
  split; [apply process_file_omap|].
  assert (forall archives, parse_all archives = omap parse_article (concat archives))
    as Hall by (intros; unfold parse_all; by rewrite Hfold).
  split; [apply Hall|]. split.
  - intros more. by rewrite !Hall, concat_app, omap_app.
  - rewrite Hall. apply length_omap_le.
Qed.

Lemma article_ids_fold ids acc :
  foldl (fun acc article_id =>
           let id_type := attrib article_id !! "IdType" in
           if bool_decide (id_type = Some "doi")
           then (extract_text (Some article_id), acc.2)
           else if bool_decide (id_type = Some "pmc")
           then (acc.1, extract_text (Some article_id))
           else acc) acc ids
  = (from_option (fun x => extract_text (Some x)) acc.1
       (last (List.filter (has_id_type "doi") ids)),
     from_option (fun x => extract_text (Some x)) acc.2
       (last (List.filter (has_id_type "pmc") ids))).
Proof.
  induction ids as [|x ids IH] using rev_ind; [by destruct acc|].
  rewrite foldl_app, IH, !List.filter_app. cbn [foldl List.filter fst snd].
  cbn zeta.
  change (bool_decide (attrib x !! "IdType" = Some "doi")) with (has_id_type "doi" x).
  change (bool_decide (attrib x !! "IdType" = Some "pmc")) with (has_id_type "pmc" x).
  destruct (has_id_type "doi" x) eqn:Hdoi.
  - assert (has_id_type "pmc" x = false) as ->.
    { unfold has_id_type in *. apply bool_decide_eq_true in Hdoi.
      apply bool_decide_eq_false. by rewrite Hdoi. }
    by rewrite last_snoc, app_nil_r.
  - destruct (has_id_type "pmc" x); by rewrite ?last_snoc, ?app_nil_r.
Qed.

(** X13.  The [doi] of a record is the text of the last [ArticleId]
    child of the [ArticleIdList] whose [IdType] is ["doi"], and the
    [pmcid] the text of the last one whose [IdType] is ["pmc"]; each is
    empty when there is no such child.  A later identifier of a type
    replaces an earlier one. *)
Theorem article_ids_take_last_match pubmed_data article_id_list :
  find pubmed_data "ArticleIdList" = Some article_id_list ->
  let ids := findall article_id_list "ArticleId" in
  article_ids_of (Some pubmed_data)
    = (extract_text (last (List.filter (has_id_type "doi") ids)),
       extract_text (last (List.filter (has_id_type "pmc") ids))).
Proof.
  intros Hl ids. unfold article_ids_of. rewrite Hl. fold ids.
  rewrite article_ids_fold. cbn [fst snd].
  by do 2 destruct (last _).
Qed.

(** At a list with two DOIs. *)
Lemma article_ids_take_last_match_witness :
  let id kind value :=
    Element "ArticleId" (Some value) (<[ "IdType" := kind ]> ∅) [] in
  let l := Element "ArticleIdList" None ∅
             [id "doi" "10.1/a"; id "pmc" "PMC1"; id "doi" "10.1/b"] in
  article_ids_of (Some (Element "PubmedData" None ∅ [l])) = ("10.1/b", "PMC1").
Proof.
  intros id l.
  exact (article_ids_take_last_match (Element "PubmedData" None ∅ [l]) l eq_refl).
Defined.

Lemma accept_store_line a :
  VectorStore.accept (store_line a) =
    if indexable a
    then Some (VectorStore.doc_text (title a) (abstract a),
               VectorStore.make_meta (pmid a) (title a)
                 (<[ "pmid" := pmid a ]> (<[ "title" := title a ]> (
                  <[ "abstract" := abstract a ]> (<[ "journal" := journal a ]> (
                  <[ "year" := year a ]> ∅))))),
               pmid a)
    else None.
Proof.
  unfold store_line, VectorStore.accept, indexable.
  rewrite lookup_insert_eq.
  rewrite (lookup_insert_ne _ "pmid" "title") by done. rewrite lookup_insert_eq.
  rewrite (lookup_insert_ne _ "pmid" "abstract") by done.
  rewrite (lookup_insert_ne _ "title" "abstract") by done. rewrite lookup_insert_eq.
  cbn [default Py.truthy_opt].
  destruct (Py.truthy (pmid a)); cbn; [|done].
  by destruct (Py.truthy (title a)), (Py.truthy (abstract a)).
Qed.

Lemma keys_of_parsed_store (l : list article) :
  Entries.keys (VectorStore.accepted (store_line <$> l))
    = pmid <$> List.filter indexable l.
Proof.
  induction l as [|a l IH]; [done|].
  rewrite fmap_cons. unfold VectorStore.accepted in *.
  change (omap VectorStore.accept (store_line a :: (store_line <$> l)))
    with (from_option (fun e => e :: omap VectorStore.accept (store_line <$> l))
            (omap VectorStore.accept (store_line <$> l))
            (VectorStore.accept (store_line a))).
  rewrite accept_store_line. cbn [List.filter].
  destruct (indexable a); cbn [from_option]; [|done].
  unfold Entries.keys in *. rewrite !fmap_cons. cbn [snd]. by rewrite IH.
Qed.

(** X14.  Parser and indexer together.  Indexing the store that
    [parse_all] wrote, from no usable checkpoint, upserts exactly the
    pmids of the parsed records that have a non-empty pmid and a
    non-empty title or abstract, once each and in the order of the
    archives; every other record is left out of the index. *)
Theorem parsed_store_is_indexed_in_order archives B w :
  VectorStore._load_checkpoint (VectorStore.checkpoint w) <= 0 ->
  let store := store_line <$> parse_all archives in
  let w' := VectorStore.index_papers (Some store) B w in
  concat (VectorStore.upserted_ids (VectorStore.calls w')) =
    concat (VectorStore.upserted_ids (VectorStore.calls w))
      ++ (pmid <$> List.filter indexable (parse_all archives)).
Proof.
  intros Hp store w'. unfold w'.
  rewrite index_papers_upserted_ids. f_equal.
  unfold Entries.unread, VectorStore.skip_lines.
  destruct (Z.ltb_spec 0 (VectorStore._load_checkpoint (VectorStore.checkpoint w)));
    [lia|].
  apply keys_of_parsed_store.
Qed.

(** At an archive with one complete record and one without PMID. *)
Lemma parsed_store_is_indexed_in_order_witness :
  let article := Element "Article" None ∅ [Element "ArticleTitle" (Some "T") ∅ []] in
  let good := Element "PubmedArticle" None ∅
                [Element "MedlineCitation" None ∅
                   [Element "PMID" (Some "7") ∅ []; article]] in
  let bad := Element "PubmedArticle" None ∅
               [Element "MedlineCitation" None ∅ [article]] in
  concat (VectorStore.upserted_ids (VectorStore.calls
    (VectorStore.index_papers (Some (store_line <$> parse_all [[good; bad]])) 2
       (VectorStore.World None ∅ [])))) = ["7"].
Proof.
  intros article good bad.
  exact (parsed_store_is_indexed_in_order [[good; bad]] 2
           (VectorStore.World None ∅ []) ltac:(cbn; lia)).
Defined.

End CodecFurther.

(** ** Fetcher, further *)

Section FetcherFurther.
Import Downloader Remotes.

Implicit Types (local : option (list byte)) (t : turn) (remote : nat -> turn).

Lemma stream_one (block : list byte) : stream [block] None = (block, None).
Proof. destruct block; cbn; [done|]. by rewrite app_nil_r. Qed.

Lemma getsize_default local : getsize local = Z.of_nat (length (default [] local)).
Proof. by destruct local. Qed.

(** One attempt against a remote end that honours ranges, started on a
    prefix of the content. *)
Lemma attempt_body_ranged content local :
  (default [] local `prefix_of` content) ->
  let r := attempt_body local (ranged_server content) in
  r.1.1 = Completed
  /\ r.1.2 = Some content
  /\ (r.2 = [Head]
      \/ exists m, r.2 = [Head; Get (resume_header (getsize local)); Open m]).
Proof.
  intros [rest Hrest]. cbn zeta.
  pose proof (getsize_default local) as Hk.
  set (pre := default [] local) in *. set (k := getsize local) in *.
  assert (Z.of_nat (length content) = k + Z.of_nat (length rest)) as Hlen.
  { rewrite Hrest, length_app. lia. }
  unfold attempt_body. fold k. cbn [ranged_server on_head on_get on_open probe].
  change (400 <=? 200) with false. cbv iota.
  set (L := Z.of_nat (length content)) in *.
  destruct ((0 <? L) && (L <=? k)) eqn:Hdone.
  - apply andb_true_iff in Hdone as [HL Hle].
    apply Z.ltb_lt in HL. apply Z.leb_le in Hle.
    assert (rest = []) as -> by (destruct rest; [done|cbn in Hlen; lia]).
    rewrite app_nil_r in Hrest. cbn. split; [done|]. split; [|by left].
    destruct local as [c|]; cbn in *; [by subst|]. subst pre. cbn in Hk. lia.
  - unfold resume_header, resume_mode.
    destruct (Z.ltb_spec 0 k) as [Hpos|Hzero].
    + change (400 <=? 206) with false. change (206 =? 200) with false. cbv iota.
      cbn [andb]. unfold update_total.
      assert ((L =? 0) = false) as -> by (apply Z.eqb_neq; lia).
      rewrite stream_one. cbn [fst snd opened].
      assert (drop (Z.to_nat k) content = rest) as ->.
      { rewrite Hrest, Hk, Nat2Z.id. apply drop_app_length. }
      fold pre. rewrite <- Hrest.
      assert ((0 <? L) && (Z.of_nat (length content) <? L) = false) as ->.
      { apply andb_false_iff. right. apply Z.ltb_ge. unfold L. lia. }
      cbn. split; [done|]. split; [done|]. right. by eexists.
    + assert (pre = []) as Hpre by (destruct pre; [done|cbn in Hk; lia]).
      rewrite Hpre in Hrest. cbn in Hrest. subst rest.
      change (400 <=? 200) with false. change (200 =? 200) with true. cbv iota.
      cbn [andb]. rewrite stream_one. cbn [fst snd opened app].
      assert (exists total, update_total L 0 (Length L) = Py.Return total
                            /\ total <= L) as (total & -> & Htot).
      { unfold update_total. destruct (L =? 0); eexists; split; try done; lia. }
      assert ((0 <? total) && (Z.of_nat (length content) <? total) = false) as ->.
      { apply andb_false_iff. right. apply Z.ltb_ge. unfold L in *. lia. }
      cbn. split; [done|]. split; [done|]. right. by eexists.
Qed.

(** X15.  Resume against a remote end that honours byte ranges.  When
    the local file is absent or holds a prefix of the remote content,
    [download_file] with at least one attempt succeeds in its first
    attempt and leaves exactly the remote content on disk; it never
    sleeps and sends at most one GET, whose range starts at the size
    found on disk. *)
Theorem resume_completes_file filename dest_dir max_retries content local :
  (default [] local `prefix_of` content) ->
  0 < max_retries ->
  let r := download_file filename (fun _ => ranged_server content)
             dest_dir max_retries local in
  r.1.1 = Some (dest_dir +:+ "/" +:+ filename)
  /\ r.1.2 = Some content
  /\ sleeps r.2 = []
  /\ (gets r.2 = [] \/ gets r.2 = [resume_header (getsize local)]).
Proof.
  intros Hpre Hmax. cbn zeta. unfold download_file, range.
  destruct (Z.to_nat max_retries) as [|n] eqn:Hn; [lia|]. cbn [seq].
  rewrite attempt_loop_cons.
  destruct (attempt_body_ranged content local Hpre) as (Hend & Hfile & Hev).
  cbn zeta in *.
  destruct (attempt_body local (ranged_server content)) as [[ending file] events].
  cbn [fst snd] in *. subst ending file. cbn.
  split; [done|]. split; [done|].
  destruct Hev as [->|[m ->]]; cbn; [by split; [|left]|by split; [|right]].
Qed.

(** At a file of five bytes of which two are on disk. *)
Lemma resume_completes_file_witness :
  (download_file "f.xml.gz" (fun _ => ranged_server [x01; x02; x03; x04; x05])
     "data/raw" 5 (Some [x01; x02])).1.2
  = Some [x01; x02; x03; x04; x05].
Proof.
  refine (proj1 (proj2 (resume_completes_file "f.xml.gz" "data/raw" 5
                          [x01; x02; x03; x04; x05] (Some [x01; x02]) _ _))).
  - by exists [x03; x04; x05].
  - lia.
Defined.

(** X16.  Against a remote end that ignores byte ranges and answers 200
    with the whole content, a local file that is shorter than the
    content, whatever bytes it holds, is discarded and rewritten: the
    first attempt succeeds and leaves exactly the remote content. *)
Theorem restart_when_range_ignored filename dest_dir max_retries content local :
  getsize local < Z.of_nat (length content) ->
  0 < max_retries ->
  download_file filename (fun _ => plain_server content) dest_dir max_retries local
    = (Some (dest_dir +:+ "/" +:+ filename), Some content,
       [Head; Get (resume_header (getsize local)); Open wb]).
Proof.
  intros Hshort Hmax. unfold download_file, range.
  destruct (Z.to_nat max_retries) as [|n] eqn:Hn; [lia|]. cbn [seq].
  rewrite attempt_loop_cons.
  assert (attempt_body local (plain_server content)
          = (Completed, Some content,
             [Head; Get (resume_header (getsize local)); Open wb])) as ->.
  { unfold attempt_body. cbn [plain_server on_head on_get on_open probe].
    set (k := getsize local) in *. set (L := Z.of_nat (length content)) in *.
    change (400 <=? 200) with false. change (200 =? 200) with true. cbv iota.
    assert ((0 <? L) && (L <=? k) = false) as ->.
    { apply andb_false_iff. right. apply Z.leb_gt. lia. }
    cbn [andb]. unfold update_total.
    assert ((L =? 0) = false) as ->.
    { apply Z.eqb_neq. pose proof (getsize_default local). fold k in H. lia. }
    rewrite stream_one. cbn [fst snd opened app].
    assert ((0 <? L) && (Z.of_nat (length content) <? L) = false) as ->.
    { apply andb_false_iff. right. apply Z.ltb_ge. unfold L. lia. }
    done. }
  done.
Qed.

(** At a local file whose two bytes are not those of the remote file. *)
Lemma restart_when_range_ignored_witness :
  download_file "f.xml.gz" (fun _ => plain_server [x01; x02; x03]) "data/raw" 5
    (Some [xff; xfe])
  = (Some "data/raw/f.xml.gz", Some [x01; x02; x03], [Head; Get (Some 2); Open wb]).
Proof.
  apply (restart_when_range_ignored "f.xml.gz" "data/raw" 5 [x01; x02; x03]
           (Some [xff; xfe])); cbn; lia.
Defined.

Lemma total_app l l' : total (l ++ l') = total l + total l'.
Proof. unfold total. induction l as [|x l IH]; cbn; lia. Qed.

Lemma total_wait_times n :
  total (wait_time <$> seq 0 n) = 5 * (2 ^ Z.of_nat n - 1).
Proof.
  induction n as [|n IH]; [done|].
  rewrite seq_S, fmap_app, total_app, IH. cbn [fmap list_fmap total foldr plus].
  unfold wait_time. rewrite Nat2Z.inj_succ, Z.pow_succ_r by lia. lia.
Qed.

Lemma gets_app ev ev' : gets (ev ++ ev') = gets ev ++ gets ev'.
Proof. unfold gets. apply omap_app. Qed.


(** One attempt keeps what is on disk in front, unless the answer is
    200. *)
Lemma attempt_body_keeps_prefix local t :
  (forall content_length body broken,
     on_get t (resume_header (getsize local))
       <> GetResponse 200 content_length body broken) ->
  default [] local `prefix_of` default [] (attempt_body local t).1.2.
Proof.
  intros Hnot. unfold attempt_body.
  destruct (probe t) as [total0|e]; [|done].
  destruct ((0 <? total0) && (total0 <=? getsize local)); [done|].
  destruct (on_get t (resume_header (getsize local)))
    as [e|status content_length body broken] eqn:Hget; [done|].
  destruct ((400 <=? status) && (status <? 600)); [done|].
  destruct (Z.eqb_spec status 200) as [->|Hne]; [by destruct (Hnot _ _ _ eq_refl)|].
  destruct (update_total _ _ _) as [total1|e]; [|done].
  destruct (on_open t); [done|].
  assert (default [] local `prefix_of`
            opened (resume_mode (getsize local)) local ++ (stream body broken).1)
    as Hpre.
  { unfold resume_mode. destruct (Z.ltb_spec 0 (getsize local)) as [Hpos|Hzero].
    - by apply prefix_app_r.
    - destruct local as [[|b c]|]; cbn in *; try lia; apply prefix_nil. }
  destruct (stream body broken).2; [done|].
  by destruct ((0 <? total1) && _).
Qed.

(** X18.  Partial downloads are kept.  As long as no GET is answered
    with status 200, the bytes found on disk stay in place through all
    attempts of [download_file], failed ones included: the file it leaves
    starts with the file it found. *)
Theorem partial_file_is_kept filename remote dest_dir max_retries local :
  (forall attempt header content_length body broken,
     on_get (remote attempt) header <> GetResponse 200 content_length body broken) ->
  default [] local
    `prefix_of` default [] (download_file filename remote dest_dir max_retries local).1.2.
Proof.
  intros Hnot. unfold download_file. cbn [fst snd].
  generalize (range max_retries). intros attempts. revert local.
  induction attempts as [|attempt attempts IH]; intros local; [done|].
  rewrite attempt_loop_cons.
  pose proof (attempt_body_keeps_prefix local (remote attempt)
                (fun cl body broken => Hnot attempt _ cl body broken)) as Hone.
  destruct (attempt_body local (remote attempt)) as [[[|e] local'] events];
    cbn [fst snd] in *; [done|].
  destruct (is_retried e); cbn [fst snd]; [|done].
  etrans; [exact Hone|apply IH].
Qed.

(** At a stream that breaks after one more byte. *)
Lemma partial_file_is_kept_witness :
  let t := Turn (HeadResponse 200 (Length 3))
                (fun _ => GetResponse 206 (Length 2) [[x02]]
                            (Some Py.ChunkedEncodingError)) None in
  [x01] `prefix_of`
    default [] (download_file "f.xml.gz" (fun _ => t) "data/raw" 2 (Some [x01])).1.2.
Proof.
  intros t.
  apply (partial_file_is_kept "f.xml.gz" (fun _ => t) "data/raw" 2 (Some [x01])).
  intros attempt header content_length body broken. discriminate.
Defined.

End FetcherFurther.

(** ** Listing and synchronisation *)

Section ListingFacts.
Import Downloader Listing.

#[local] Instance str_le_total : Total str_le.
Proof. intros a b. apply String.leb_total. Qed.

Lemma endswith_nonempty suffix s :
  suffix <> "" -> endswith suffix s = true -> Py.truthy s = true.
Proof.
  intros Hne. destruct s as [|c s]; [|done]. cbn.
  rewrite orb_false_r. intros H%String.eqb_eq. done.
Qed.

Lemma archive_name_some href name :
  archive_name href = Some name <-> href = Some name /\ endswith ".xml.gz" name = true.
Proof.
  unfold archive_name. destruct href as [h|]; [|by split; [|intros [? _]]].
  destruct (Py.truthy h && endswith ".xml.gz" h) eqn:E.
  - apply andb_true_iff in E as [_ He]. split.
    + by intros [= <-].
    + by intros [[= <-] _].
  - split; [done|]. intros [[= ->] He].
    by rewrite He, (endswith_nonempty ".xml.gz" name) in E.
Qed.

(** X19.  [get_file_list] gives the empty list when the request raises a
    request exception or the status is an error.  Otherwise it gives, in
    non-decreasing order, exactly the link targets that end in
    [.xml.gz]: every name returned ends in [.xml.gz], and every such link
    of the page is returned, as often as it is linked. *)
Theorem listing_is_filtered_and_sorted :
  (forall e, is_request_exception e = true ->
             get_file_list (PageRaises e) = Py.Return [])
  /\ (forall status_code hrefs,
        400 <= status_code < 600 ->
        get_file_list (Page status_code hrefs) = Py.Return [])
  /\ (forall status_code hrefs,
        ~ (400 <= status_code < 600) ->
        exists files,
          get_file_list (Page status_code hrefs) = Py.Return files
          /\ Sorted str_le files
          /\ files ≡ₚ omap archive_name hrefs
          /\ Forall (fun name => endswith ".xml.gz" name = true) files
          /\ (forall name, Some name ∈ hrefs -> endswith ".xml.gz" name = true ->
                           name ∈ files)).
Proof.
  split; [|split].
  - intros e He. cbn. by rewrite He.
  - intros status_code hrefs [Hlo Hhi]. cbn.
    by rewrite (proj2 (Z.leb_le _ _) Hlo), (proj2 (Z.ltb_lt _ _) Hhi).
  - intros status_code hrefs Hok. cbn.
    assert ((400 <=? status_code) && (status_code <? 600) = false) as ->.
    { apply andb_false_iff.
      destruct (Z.leb_spec 400 status_code); [|by left].
      destruct (Z.ltb_spec status_code 600); [|by right]. lia. }
    eexists. split; [done|].
    pose proof (merge_sort_Permutation str_le (omap archive_name hrefs)) as Hperm.
    split; [apply Sorted_merge_sort; apply _|]. split; [done|]. split.
    + rewrite Hperm. apply Forall_forall. intros name Hin.
      apply list_elem_of_omap in Hin as (href & _ & Hname).
      by apply archive_name_some in Hname as [_ ?].
    + intros name Hin He. rewrite Hperm. apply list_elem_of_omap.
      exists (Some name). split; [done|]. by apply archive_name_some.
Qed.

(** At a page with two archives, a tag without target and another link. *)
Lemma listing_is_filtered_and_sorted_witness :
  get_file_list (Page 200 [Some "b.xml.gz"; None; Some "README.txt"; Some "a.xml.gz"])
    = Py.Return ["a.xml.gz"; "b.xml.gz"].
Proof.
  destruct (proj2 (proj2 listing_is_filtered_and_sorted) 200
              [Some "b.xml.gz"; None; Some "README.txt"; Some "a.xml.gz"]
              ltac:(lia)) as (files & Hfiles & _).
  rewrite Hfiles. vm_compute in Hfiles. injection Hfiles as <-. reflexivity.
Defined.





End ListingFacts.

(** ** Keyword search *)

Section KeywordSearch.
Import VectorStore Shell.

(** The scan from any state: what it adds to the matches. *)
Lemma scan_adds keyword limit lines :
  forall count matches,
    exists new,
      scan keyword limit lines count matches = matches ++ new
      /\ new `sublist_of` records lines
      /\ Forall (fun data => matches_keyword keyword data = true) new
      /\ Z.of_nat (length new) <= Z.max (limit - count) 1.
Proof.
  induction lines as [|l lines IH]; intros count matches.
  - exists []. rewrite app_nil_r. repeat split; [done|constructor|cbn; lia].
  - destruct l as [| |data]; cbn [scan].
    + destruct (IH count matches) as (new & -> & Hsub & Hall & Hlen).
      by exists new.
    + exists []. rewrite app_nil_r.
      repeat split; [apply sublist_nil_l|constructor|cbn; lia].
    + change (records (Object data :: lines)) with (data :: records lines).
      destruct (matches_keyword keyword data) eqn:Hm.
      * destruct (Z.leb_spec limit (count + 1)).
        -- exists [data]. repeat split.
           ++ apply sublist_skip, sublist_nil_l.
           ++ by repeat constructor.
           ++ cbn. lia.
        -- destruct (IH (count + 1) (matches ++ [data]))
             as (new & -> & Hsub & Hall & Hlen).
           exists (data :: new). rewrite <- app_assoc. repeat split.
           ++ by apply sublist_skip.
           ++ by constructor.
           ++ cbn [length]. lia.
      * destruct (IH count matches) as (new & -> & Hsub & Hall & Hlen).
        exists new. repeat split; try done. by apply sublist_cons.
Qed.

(** A line that decodes to something else than an object ends the
    scan. *)
Lemma scan_stops keyword limit before after :
  forall count matches,
    scan keyword limit (before ++ NotAnObject :: after) count matches
    = scan keyword limit before count matches.
Proof.
  induction before as [|l before IH]; intros count matches; [done|].
  destruct l as [| |data]; cbn [scan app]; [apply IH|done|].
  destruct (matches_keyword keyword data); [|apply IH].
  destruct (limit <=? count + 1); [done|apply IH].
Qed.

(** X21.  The keyword search of [find_candidates].  Without vector
    search, or when the vector store cannot be built or its search
    raises, the result consists of records of the store, in store order,
    each of which has the keyword, case-insensitively, in its title and
    abstract joined by a space; there are at most [max(limit, 1)] of them
    (a limit of 0 or less still lets the first match through).  A line
    that is valid JSON but not an object ends the search: no line after
    it is looked at.  A vector search that returns, even an empty list,
    is the result as it is. *)
Theorem keyword_search_is_bounded keyword limit lines :
  (exists found,
     find_candidates keyword limit false None (Some lines) = Stored <$> found
     /\ found `sublist_of` records lines
     /\ Forall (fun data => matches_keyword keyword data = true) found
     /\ Z.of_nat (length found) <= Z.max limit 1)
  /\ (forall before after,
        lines = before ++ NotAnObject :: after ->
        find_candidates keyword limit false None (Some lines)
        = find_candidates keyword limit false None (Some before))
  /\ (forall vs metadata,
        (vs = None \/ exists e, vs = Some (Py.Raise e)) ->
        find_candidates keyword limit true vs metadata
        = find_candidates keyword limit false vs metadata)
  /\ (forall cs metadata,
        find_candidates keyword limit true (Some (Py.Return cs)) metadata
        = Indexed <$> cs).
Proof.
  split; [|split; [|split]].
  - destruct (scan_adds keyword limit lines 0 []) as (new & Hscan & Hsub & Hall & Hlen).
    exists new. cbn. rewrite Hscan. repeat split; try done.
    by rewrite Z.sub_0_r in Hlen.
  - intros before after ->. cbn. by rewrite scan_stops.
  - intros vs metadata [->|[e ->]]; done.
  - done.
Qed.

(** At a store where a list stands between two matching records. *)
Lemma keyword_search_is_bounded_witness :
  let first := <[ "title" := "Lung Cancer" ]> (∅ : gmap string string) in
  let second := <[ "abstract" := "cancer of the lung" ]> (∅ : gmap string string) in
  find_candidates "CANCER" 10 false None
    (Some [Object first; NotAnObject; Object second])
  = [Stored first].
Proof.
  intros first second.
  rewrite (proj1 (proj2 (keyword_search_is_bounded "CANCER" 10
                           [Object first; NotAnObject; Object second]))
             [Object first] [Object second] eq_refl).
  vm_compute. reflexivity.
Defined.

End KeywordSearch.

(** ** Incremental indexing *)

Section Incremental.
Import VectorStore Entries.

(** No line after the last accepted one is accepted. *)
Lemma nothing_accepted_after_last lines :
  accepted (drop (Z.to_nat (last_accepted lines)) lines) = [].
Proof.
  induction lines as [|l lines IH] using rev_ind; [done|].
  rewrite last_accepted_snoc. unfold is_accepted.
  destruct (accept l) as [e|] eqn:Hl.
  - rewrite drop_ge; [done|]. rewrite length_app. cbn. lia.
  - pose proof (last_accepted_le lines) as Hle.
    rewrite drop_app_le by lia. rewrite accepted_snoc, IH, Hl. done.
Qed.

(** After a run from an absent checkpoint, the lines a later run skips
    hold every accepted line of the store, and nothing accepted is left
    among the lines it reads again. *)
Lemma unread_after_first_run first B w more :
  0 < B -> checkpoint w = None ->
  accepted (unread (checkpoint (index_papers (Some first) B w)) (first ++ more))
    = accepted more.
Proof.
  intros HB Hfresh. unfold index_papers. rewrite Hfresh. cbn [_load_checkpoint].
  change (skip_lines 0 first) with first.
  destruct (index_run_law B 0 first w HB) as [_ Hck]. cbn zeta in Hck.
  rewrite Hck, Hfresh. clear Hck.
  set (n := Z.of_nat (length (accepted first))).
  assert (forall p, 0 <= p <= Z.of_nat (length first) ->
            accepted (drop (Z.to_nat p) first) = [] ->
            accepted (skip_lines p (first ++ more)) = accepted more) as Hskip.
  { intros p Hp Hnone. unfold skip_lines. destruct (Z.ltb_spec 0 p).
    - rewrite drop_app_le by lia. unfold accepted in *.
      by rewrite omap_app, Hnone.
    - assert (p = 0) as -> by lia.
      change (drop (Z.to_nat 0) first) with first in Hnone.
      unfold accepted in *. by rewrite omap_app, Hnone. }
  unfold unread. destruct (Z.eqb_spec n 0) as [Hn|Hn]; cbn [_load_checkpoint].
  - apply Hskip; [lia|]. change (drop (Z.to_nat 0) first) with first.
    unfold n in Hn. destruct (accepted first); [done|cbn in Hn; lia].
  - rewrite Z.add_0_l. destruct (n mod B =? 0).
    + apply Hskip; [apply last_accepted_le|apply nothing_accepted_after_last].
    + apply Hskip; [lia|]. by rewrite Nat2Z.id, drop_all.
Qed.

(** X22.  Incremental indexing is exact.  Index a store from an absent
    checkpoint, append lines to it, and index again with the same
    positive batch size: over the two runs every accepted line of the
    grown store is upserted exactly once, in store order, although the
    checkpoint of the first run may lie before the end of the first
    store. *)
Theorem incremental_runs_upsert_each_line_once first more B w :
  0 < B -> checkpoint w = None ->
  let w1 := index_papers (Some first) B w in
  let w2 := index_papers (Some (first ++ more)) B w1 in
  concat (upserted_ids (calls w2)) =
    concat (upserted_ids (calls w)) ++ keys (accepted (first ++ more)).
Proof.
  intros HB Hfresh. cbn zeta.
  rewrite !index_papers_upserted_ids, unread_after_first_run by done.
  unfold unread. rewrite Hfresh. cbn [_load_checkpoint].
  change (skip_lines 0 first) with first.
  unfold accepted. by rewrite omap_app, keys_app, app_assoc.
Qed.

(** At the test scenario with a rejected line at the end of the first
    store. *)
Lemma incremental_runs_upsert_each_line_once_witness :
  let first := first_four ++ [Undecodable] in
  let w1 := index_papers (Some first) 2 (World None ∅ []) in
  let w2 := index_papers (Some (first ++ next_six)) 2 w1 in
  checkpoint w1 = Some (Dict (Some 4))
  /\ concat (upserted_ids (calls w2))
     = ["0"; "1"; "2"; "3"; "4"; "5"; "6"; "7"; "8"; "9"].
Proof.
  intros first w1 w2. split; [vm_compute; reflexivity|].
  unfold w2, w1.
  rewrite (incremental_runs_upsert_each_line_once first next_six 2 (World None ∅ []));
    [|lia|reflexivity].
  vm_compute. reflexivity.
Defined.

End Incremental.

(** ** Crash in the middle of a run *)

Section Crash.
Import VectorStore Entries.

(** While the loop runs, the lines up to the position in the checkpoint
    file hold exactly the entries upserted so far. *)
Lemma run_loop_checkpoint_covers B p lines w :
  exists batches,
    let s := run_loop B p lines w in
    calls (env s) = calls w ++ (as_upsert <$> batches)
    /\ ((batches = [] /\ checkpoint (env s) = checkpoint w)
        \/ exists q,
             checkpoint (env s) = Some (Dict (Some (p + Z.of_nat q)))
             /\ (0 < q <= length lines)%nat
             /\ accepted (take q lines) = concat batches).
Proof.
  destruct (run_loop_entries B p lines w)
    as (batches & pending & _ & _ & _ & _ & Hc & _ & _ & _ & Hck).
  by exists batches.
Qed.

(** X23.  A crash between two lines loses nothing and repeats nothing.
    Let a run from an absent checkpoint stop after any number of lines
    [seen], its pending batch lost with the process.  A later run over
    the store [seen ++ rest], with any batch size, resumes at the
    checkpoint: over both runs every accepted line is upserted exactly
    once, in store order. *)
Theorem crash_between_lines_loses_nothing seen rest B B' w :
  checkpoint w = None ->
  let crashed := env (run_loop B 0 seen w) in
  let w' := index_papers (Some (seen ++ rest)) B' crashed in
  concat (upserted_ids (calls w')) =
    concat (upserted_ids (calls w)) ++ keys (accepted (seen ++ rest)).
Proof.
  intros Hfresh. cbn zeta. rewrite index_papers_upserted_ids.
  destruct (run_loop_checkpoint_covers B 0 seen w) as (batches & Hc & Hck).
  cbn zeta in *. rewrite Hc, upserted_ids_app, concat_app, upserted_ids_batches.
  rewrite <- app_assoc. f_equal. rewrite <- keys_app. f_equal.
  destruct Hck as [[-> Hck]|(q & Hck & Hq & Hcov)].
  - by rewrite Hck, Hfresh.
  - rewrite Hck, <- Hcov. unfold unread. cbn [_load_checkpoint].
    rewrite Z.add_0_l. unfold skip_lines.
    destruct (Z.ltb_spec 0 (Z.of_nat q)); [|lia].
    rewrite Nat2Z.id, drop_app_le by lia.
    unfold accepted. rewrite <- omap_app, app_assoc. by rewrite take_drop.
Qed.

(** At the test scenario, stopped after three of the four lines. *)
Lemma crash_between_lines_loses_nothing_witness :
  let crashed := env (run_loop 2 0 (test_record <$> ["0"; "1"; "2"]) (World None ∅ [])) in
  concat (upserted_ids (calls (index_papers (Some first_four) 2 crashed)))
    = ["0"; "1"; "2"; "3"].
Proof.
  intros crashed.
  exact (crash_between_lines_loses_nothing
           (test_record <$> ["0"; "1"; "2"]) (test_record <$> ["3"]) 2 2
           (World None ∅ []) eq_refl).
Defined.

End Crash.

(** ** A remote end that keeps refusing *)

Section Refusal.
Import Downloader Session Remotes.

Implicit Types (x : exchange) (remote : nat -> exchange).

Lemma requests_cons remote attempt rest local :
  requests remote (attempt :: rest) local =
    let here := attempt_requests local (remote attempt) in
    match attempt_body local (as_turn (remote attempt)) with
    | (Completed, _, _) => here
    | (Raised e, local', _) =>
        if is_retried e then
          let r := requests remote rest local' in
          (here.1 + r.1, here.2 + r.2)%nat
        else here
    end.
Proof. reflexivity. Qed.

(** One call sends at least one request and at most one more than
    [total]. *)
Lemma send_sent {R : Type} policy method budget (wire : nat -> reply R) :
  forall sent,
    (sent < (send policy method budget wire sent).2 <= sent + budget + 1)%nat.
Proof.
  induction budget as [|budget IH]; intros sent; cbn [send];
    destruct (wire sent) as [|status_code retry_after response];
    try destruct (is_retry _ _ _ _ _); cbn [snd]; try lia;
    specialize (IH (S sent)); lia.
Qed.

Lemma session_head_sent x : (1 <= (session_head x).2 <= 6)%nat.
Proof.
  pose proof (send_sent retries "HEAD" (Session.total retries) (wire_head x) 0%nat) as H.
  unfold session_head. cbv zeta. cbn [snd].
  change (Session.total retries) with 5%nat in *. lia.
Qed.

Lemma session_get_sent x range_from :
  (1 <= (session_get x range_from).2 <= 6)%nat.
Proof.
  pose proof (send_sent retries "GET" (Session.total retries)
                (wire_get x range_from) 0%nat) as H.
  unfold session_get. cbv zeta. cbn [snd].
  change (Session.total retries) with 5%nat in *. lia.
Qed.

Lemma is_retry_forced method budget status_code retry_after :
  method ∈ allowed_methods retries ->
  bool_decide (status_code ∈ status_forcelist retries) = true ->
  is_retry retries method budget status_code retry_after = true.
Proof.
  intros Hm Hs. unfold is_retry. rewrite Hs. by rewrite bool_decide_eq_true_2.
Qed.

(** Replies that are all lost or of the force list use up [total]. *)
Lemma send_forced {R : Type} method budget (wire : nat -> reply R) :
  method ∈ allowed_methods retries ->
  (forall i, forced (wire i) = true) ->
  forall sent,
    send retries method budget wire sent = (None, (sent + budget + 1)%nat).
Proof.
  intros Hm Hall. induction budget as [|budget IH]; intros sent; cbn [send];
    specialize (Hall sent) as Hf;
    destruct (wire sent) as [|status_code retry_after response];
    unfold forced in Hf; cbv beta iota in Hf;
    rewrite ?(is_retry_forced method _ status_code retry_after Hm Hf);
    rewrite ?IH; f_equal; lia.
Qed.

(** A reply that is final ends the call. *)
Lemma send_final {R : Type} method budget (wire : nat -> reply R) sent :
  final (wire sent) = true ->
  (send retries method budget wire sent).2 = S sent.
Proof.
  intros Hf. destruct (wire sent) as [|status_code retry_after response] eqn:Hw;
    [done|].
  unfold final in Hf. cbv beta iota in Hf.
  apply andb_true_iff in Hf as [Hs Ha]. apply negb_true_iff in Hs, Ha.
  assert (is_retry retries method budget status_code retry_after = false) as Hno.
  { unfold is_retry. rewrite Hs. cbn [orb].
    rewrite <- andb_assoc, Ha, andb_false_r. apply andb_false_r. }
  destruct budget; cbn [send]; by rewrite Hw, Hno.
Qed.

(** When no reply is a success, the call raises or hands over a 4xx or
    5xx response. *)
Lemma send_refused {R : Type} method budget (wire : nat -> reply R) :
  (forall i, refused (wire i) = true) ->
  forall sent,
    match (send retries method budget wire sent).1 with
    | Some (status_code, _) => 400 <= status_code < 600
    | None => True
    end.
Proof.
  intros Hall. induction budget as [|budget IH]; intros sent; cbn [send];
    specialize (Hall sent) as Hr;
    destruct (wire sent) as [|status_code retry_after response]; cbn in Hr;
    try destruct (is_retry _ _ _ _ _); cbn [fst]; try done; try apply IH;
    apply andb_true_iff in Hr as [Hlo Hhi];
    apply Z.leb_le in Hlo; apply Z.ltb_lt in Hhi; lia.
Qed.

(** A pass through the body of the attempt loop against a remote end
    that gives no success: the probe finds no total, the GET raises, and
    the local file is not touched. *)
Lemma attempt_body_refused local x :
  (forall i, refused (wire_head x i) = true) ->
  (forall range_from i, refused (wire_get x range_from i) = true) ->
  attempt_body local (as_turn x)
    = (Raised Py.RequestException, local,
       [Head; Get (resume_header (getsize local))]).
Proof.
  intros Hhead Hget.
  assert (probe (as_turn x) = Py.Return 0) as Hp.
  { unfold probe, as_turn, session_head. cbn [on_head fst].
    pose proof (send_refused "HEAD" (Session.total retries) (wire_head x) Hhead 0%nat) as H.
    destruct (send retries "HEAD" (Session.total retries) (wire_head x) 0).1
      as [[status_code content_length]|]; [|done].
    by rewrite (proj2 (Z.leb_le _ _) (proj1 H)). }
  unfold attempt_body. rewrite Hp. change (0 <? 0) with false. cbn [andb].
  unfold as_turn, session_get. cbn [on_get fst].
  pose proof (send_refused "GET" (Session.total retries)
                (wire_get x (resume_header (getsize local)))
                (Hget (resume_header (getsize local))) 0%nat) as H.
  destruct (send retries "GET" (Session.total retries)
              (wire_get x (resume_header (getsize local))) 0).1
    as [[status_code [[content_length body] broken]]|]; [|done].
  by rewrite (proj2 (Z.leb_le _ _) (proj1 H)), (proj2 (Z.ltb_lt _ _) (proj2 H)).
Qed.

Lemma attempt_requests_refused local x :
  (forall i, refused (wire_head x i) = true) ->
  (forall range_from i, refused (wire_get x range_from i) = true) ->
  attempt_requests local x
    = ((session_head x).2, (session_get x (resume_header (getsize local))).2).
Proof.
  intros Hhead Hget. unfold attempt_requests.
  rewrite (attempt_body_refused local x Hhead Hget). cbn. by rewrite Nat.add_0_r.
Qed.

Lemma attempt_loop_refused remote local count :
  (forall attempt i, refused (wire_head (remote attempt) i) = true) ->
  (forall attempt range_from i,
     refused (wire_get (remote attempt) range_from i) = true) ->
  forall first,
    let r := attempt_loop (fun attempt => as_turn (remote attempt))
                          (seq first count) local in
    let q := requests remote (seq first count) local in
    r.1 = (false, local)
    /\ sleeps r.2 = wait_time <$> seq first count
    /\ gets r.2 = replicate count (resume_header (getsize local))
    /\ q.1 = sum_list_with (fun attempt => (session_head (remote attempt)).2)
                           (seq first count)
    /\ q.2 = sum_list_with
               (fun attempt =>
                  (session_get (remote attempt) (resume_header (getsize local))).2)
               (seq first count).
Proof.
  intros Hhead Hget. induction count as [|count IH]; intros first; [done|].
  cbn zeta. cbn [seq]. rewrite attempt_loop_cons, requests_cons.
  rewrite (attempt_requests_refused local (remote first) (Hhead first) (Hget first)).
  rewrite (attempt_body_refused local (remote first) (Hhead first) (Hget first)).
  cbn [is_retried]. destruct (IH (S first)) as (Hr & Hs & Hg & Hq1 & Hq2).
  cbn zeta in *.
  destruct (attempt_loop _ (seq (S first) count) local) as [[ok file] events].
  cbn [fst snd] in *. injection Hr as -> ->.
  split; [done|]. rewrite !sleeps_app, !gets_app.
  change (sleeps [Head; Get (resume_header (getsize local))]) with (@nil Z).
  change (sleeps [Sleep (wait_time first)]) with [wait_time first].
  change (gets [Head; Get (resume_header (getsize local))])
    with [resume_header (getsize local)].
  change (gets [Sleep (wait_time first)]) with (@nil (option Z)).
  rewrite Hs, Hg, Hq1, Hq2. done.
Qed.

Lemma sum_list_with_between {A : Type} (f : A -> nat) lo hi (l : list A) :
  (forall a, lo <= f a <= hi)%nat ->
  (lo * length l <= sum_list_with f l <= hi * length l)%nat.
Proof.
  intros Hf. induction l as [|a l IH]; cbn; [lia|]. specialize (Hf a). lia.
Qed.




(** X24.  A remote end that gives no success: every request is lost or
    answered with a 4xx or 5xx status.  [download_file] goes through all
    [max_retries] attempts, with one call of [session.get] each for the
    same range and a sleep of 5, 10, 20, ... seconds after each, the
    last attempt included, then returns [None]; the local file is left
    as it was.  Each call sends between 1 and 6 requests: 6 when every
    reply is lost or has a status of the force list (429, 500, 502, 503,
    504), so that [6 * max_retries] GET requests reach the remote end;
    1 when every reply is final (416 for a range past the end, for
    instance), so that [max_retries] do. *)
Theorem refused_download_uses_all_attempts filename remote dest_dir max_retries local :
  (forall attempt i, refused (wire_head (remote attempt) i) = true) ->
  (forall attempt range_from i,
     refused (wire_get (remote attempt) range_from i) = true) ->
  let r := download_file filename (fun attempt => as_turn (remote attempt))
                         dest_dir max_retries local in
  let q := download_requests remote max_retries local in
  let n := Z.to_nat max_retries in
  r.1 = (None, local)
  /\ gets r.2 = replicate n (resume_header (getsize local))
  /\ sleeps r.2 = wait_time <$> seq 0 n
  /\ Remotes.total (sleeps r.2) = 5 * (2 ^ Z.of_nat n - 1)
  /\ (n <= q.1 <= 6 * n)%nat
  /\ (n <= q.2 <= 6 * n)%nat
  /\ ((forall attempt i, forced (wire_head (remote attempt) i) = true) ->
      q.1 = (6 * n)%nat)
  /\ ((forall attempt range_from i,
         forced (wire_get (remote attempt) range_from i) = true) ->
      q.2 = (6 * n)%nat)
  /\ ((forall attempt i, final (wire_head (remote attempt) i) = true) -> q.1 = n)
  /\ ((forall attempt range_from i,
         final (wire_get (remote attempt) range_from i) = true) ->
      q.2 = n).
Proof.
  intros Hhead Hget. cbn zeta. unfold download_file, download_requests, range.
  destruct (attempt_loop_refused remote local (Z.to_nat max_retries) Hhead Hget 0%nat)
    as (Hr & Hs & Hg & Hq1 & Hq2).
  cbn zeta in *.
  destruct (attempt_loop _ (seq 0 (Z.to_nat max_retries)) local)
    as [[ok file] events].
  cbn [fst snd] in *. injection Hr as -> ->.
  rewrite Hs, Hg, Hq1, Hq2, total_wait_times.
  set (n := Z.to_nat max_retries).
  set (heads := fun attempt => (session_head (remote attempt)).2).
  set (bodies := fun attempt =>
                   (session_get (remote attempt) (resume_header (getsize local))).2).
  assert (forall lo hi (f : nat -> nat),
            (forall a, lo <= f a <= hi)%nat ->
            (lo * n <= sum_list_with f (seq 0 n) <= hi * n)%nat) as Hsum.
  { intros lo hi f Hf.
    pose proof (sum_list_with_between f lo hi (seq 0 n) Hf) as H.
    by rewrite length_seq in H. }
  assert (forall a, 1 <= heads a <= 6)%nat as Hheads
    by (intros a; apply session_head_sent).
  assert (forall a, 1 <= bodies a <= 6)%nat as Hbodies
    by (intros a; apply session_get_sent).
  assert ("HEAD" ∈ allowed_methods retries) as Hm1 by (cbn; repeat constructor).
  assert ("GET" ∈ allowed_methods retries) as Hm2 by (cbn; repeat constructor).
  split; [done|]. split; [done|]. split; [done|]. split; [done|].
  split; [specialize (Hsum 1%nat 6%nat heads Hheads); lia|].
  split; [specialize (Hsum 1%nat 6%nat bodies Hbodies); lia|].
  split; [|split; [|split]].
  - intros Hf. assert (forall a, 6 <= heads a <= 6)%nat as H6.
    { intros a. unfold heads, session_head. cbv zeta. cbn [snd].
      rewrite (send_forced "HEAD" _ _ Hm1 (Hf a)). cbn. lia. }
    specialize (Hsum 6%nat 6%nat heads H6). lia.
  - intros Hf. assert (forall a, 6 <= bodies a <= 6)%nat as H6.
    { intros a. unfold bodies, session_get. cbv zeta. cbn [snd].
      rewrite (send_forced "GET" _ _ Hm2 (Hf a _)). cbn. lia. }
    specialize (Hsum 6%nat 6%nat bodies H6). lia.
  - intros Hf. assert (forall a, 1 <= heads a <= 1)%nat as H1.
    { intros a. unfold heads, session_head. cbv zeta. cbn [snd].
      rewrite (send_final "HEAD" _ _ _ (Hf a 0%nat)). lia. }
    specialize (Hsum 1%nat 1%nat heads H1). lia.
  - intros Hf. assert (forall a, 1 <= bodies a <= 1)%nat as H1.
    { intros a. unfold bodies, session_get. cbv zeta. cbn [snd].
      rewrite (send_final "GET" _ _ _ (Hf a _ 0%nat)). lia. }
    specialize (Hsum 1%nat 1%nat bodies H1). lia.
Qed.

(** At a remote end that answers every request with 503, and at one
    that answers every request with 416, with 2 bytes on disk and 5
    attempts: the same 5 calls and sleeps, 30 GET requests in the first
    case and 5 in the second. *)
Lemma refused_download_uses_all_attempts_witness :
  let run status_code :=
    download_file "f.xml.gz" (fun _ => as_turn (failing_server status_code))
                  "data/raw" 5 (Some [x01; x02]) in
  let sent status_code :=
    download_requests (fun _ => failing_server status_code) 5 (Some [x01; x02]) in
  ((run 503).1 = (None, Some [x01; x02])
   /\ gets (run 503).2 = replicate 5 (Some 2)
   /\ sleeps (run 503).2 = [5; 10; 20; 40; 80]
   /\ (sent 503).2 = 30%nat)
  /\ ((run 416).1 = (None, Some [x01; x02])
      /\ gets (run 416).2 = replicate 5 (Some 2)
      /\ sleeps (run 416).2 = [5; 10; 20; 40; 80]
      /\ (sent 416).2 = 5%nat).
Proof.
  intros run sent. split.
  - destruct (refused_download_uses_all_attempts "f.xml.gz"
                (fun _ => failing_server 503) "data/raw" 5 (Some [x01; x02]))
      as (Hr & Hg & Hs & _ & _ & _ & _ & Hforced & _); [done|done|].
    split; [exact Hr|]. split; [exact Hg|]. split; [exact Hs|].
    apply Hforced. intros attempt range_from i. reflexivity.
  - destruct (refused_download_uses_all_attempts "f.xml.gz"
                (fun _ => failing_server 416) "data/raw" 5 (Some [x01; x02]))
      as (Hr & Hg & Hs & _ & _ & _ & _ & _ & _ & Hfinal); [done|done|].
    split; [exact Hr|]. split; [exact Hg|]. split; [exact Hs|].
    apply Hfinal. intros attempt range_from i. reflexivity.
Defined.

End Refusal.

(** ** The two query variants on an empty result *)

Section EmptyResult.
Import VectorStore.

(** X25.  The defect of the older [query] is latent: when the collection
    returns no id list at all, or an empty first id list together with
    some metadata and document lists, both variants return the empty list
    of candidates; with a non-empty first id list the loop body runs and
    the current variant needs one metadata and one document per id, or
    raises IndexError. *)
Theorem query_variants_agree_without_ids results :
  (r_ids results = [] ->
   query results = Py.Return [] /\ LegacyStore.query results = Py.Return [])
  /\ (forall rest metas rest_m documents rest_d,
        r_ids results = [] :: rest ->
        r_metadatas results = metas :: rest_m ->
        r_documents results = documents :: rest_d ->
        query results = Py.Return [] /\ LegacyStore.query results = Py.Return [])
  /\ (forall ids rest metas rest_m documents rest_d,
        r_ids results = ids :: rest ->
        r_metadatas results = metas :: rest_m ->
        r_documents results = documents :: rest_d ->
        (length metas < length ids)%nat \/ (length documents < length ids)%nat ->
        query results = Py.Raise Py.IndexError).
Proof.
  split; [|split].
  - intros H. unfold query, LegacyStore.query, query_via. by rewrite H.
  - intros rest metas rest_m documents rest_d Hi Hm Hd.
    unfold query, LegacyStore.query, query_via. by rewrite Hi, Hm, Hd.
  - intros ids rest metas rest_m documents rest_d Hi Hm Hd Hshort.
    unfold query, query_via. rewrite Hi, Hm, Hd.
    generalize (@nil candidate). generalize ids at 1 as ids0. intros ids0.
    assert (forall i cs,
              (length metas < i + length ids)%nat
              \/ (length documents < i + length ids)%nat ->
              (i <= length metas)%nat -> (i <= length documents)%nat ->
              query_loop "metas" (scope module_globals ids0 metas documents)
                documents i ids cs = Py.Raise Py.IndexError) as Hloop.
    { clear. induction ids as [|doc_id ids IH]; intros i cs Hshort Hm Hd.
      - cbn in Hshort. lia.
      - cbn [query_loop]. unfold subscript. rewrite scope_metas.
        destruct (metas !! i) as [m|] eqn:Hmi; [|done].
        destruct (documents !! i) as [d|] eqn:Hdi; [|done].
        apply lookup_lt_Some in Hmi. apply lookup_lt_Some in Hdi.
        apply IH; cbn [length] in *; lia. }
    intros cs. apply Hloop; lia.
Qed.

(** At a result with two ids and one metadata. *)
Lemma query_variants_agree_without_ids_witness :
  query (QueryResult [["1"; "2"]] [[∅]] [["a"; "b"]]) = Py.Raise Py.IndexError.
Proof.
  refine (proj2 (proj2 (query_variants_agree_without_ids
                          (QueryResult [["1"; "2"]] [[∅]] [["a"; "b"]])))
            ["1"; "2"] [] [∅] [] ["a"; "b"] [] eq_refl eq_refl eq_refl _).
  left. cbn. lia.
Defined.

End EmptyResult.
